(** * export_model.py: the BLIP-to-ONNX export script, embedded in Rocq

    The script [scripts/export_model.py] is a straight-line program: it
    creates the output directory, loads the model, exports two sub-graphs,
    saves the tokenizer files and prints a manifest.  Everything it does
    goes through library calls (transformers, torch, pathlib, shutil), so
    the embedding is an exception-and-state monad over a small file system,
    with the library calls supplied by a [World] record. *)

From Stdlib Require Import QArith.
From stdpp Require Import gmap strings list fin_maps sorting.

Open Scope string_scope.
Open Scope list_scope.
#[local] Set Warnings "-clear-no-such-hyp".

(** ** Exceptions and results *)

Inductive Exn :=
  | FileExistsError
  | FileNotFoundError
  | NotADirectoryError
  | IsADirectoryError
  | TypeError
  | LibraryError (msg : string).

Inductive Result (A : Type) :=
  | Ok (a : A)
  | Raise (e : Exn).
Arguments Ok {A} a.
Arguments Raise {A} e.

Definition result_map {A B} (f : A → B) (r : Result A) : Result B :=
  match r with
  | Ok a => Ok (f a)
  | Raise e => Raise e
  end.

#[global] Instance Result_fmap : FMap Result := @result_map.

Definition outcome {A} (r : Result A) : option Exn :=
  match r with
  | Ok _ => None
  | Raise e => Some e
  end.

(** ** Tensors

    A tensor is described by its shape, its element type and its elements
    in storage order.  Only shapes and element types matter for tracing. *)

Inductive DType := torch_float32 | torch_long.

Record Tensor := {
  shape : list N;
  dtype : DType;
  item : nat → Q;
}.

(** The default generator of torch: a state from which [torch.randn]
    draws its samples. *)
Definition Rng := N.

Definition numel (dims : list N) : N := foldr N.mul 1%N dims.

(** [torch.ones(d1, ..., dn, dtype=dt)] *)
Definition torch_ones (dims : list N) (dt : DType) : Tensor :=
  {| shape := dims; dtype := dt; item := λ _, 1%Q |}.

(** [torch.randn(d1, ..., dn)] with the samples [g] drawn from the generator. *)
Definition torch_randn (g : nat → Q) (dims : list N) : Tensor :=
  {| shape := dims; dtype := torch_float32; item := g |}.

(** ** Modules of torch.nn

    A module carries its [training] flag; what it computes may depend on
    the flag and on the random generator (dropout). *)

Record Module (I O : Type) := {
  training : bool;
  impl : bool → Rng → I → Result O;
}.
Arguments training {I O} m.
Arguments impl {I O} m.

(** [m(x)]: the module runs under its own flag. *)
Definition module_call {I O} (m : Module I O) (g : Rng) (x : I) : Result O :=
  impl m (training m) g x.

(** [m.eval()] *)
Definition module_eval {I O} (m : Module I O) : Module I O :=
  {| training := false; impl := impl m |}.

(** The output of the vision sub-module (BaseModelOutputWithPooling). *)
Record VisionOutput := {
  last_hidden_state : Tensor;
  pooler_output : Tensor;
  vision_hidden_states : option (list Tensor);
  vision_attentions : option (list Tensor);
}.

Definition Cache := list (Tensor * Tensor).

(** The keyword arguments of the text decoder that the script can reach;
    an argument that is not passed keeps its default [None]. *)
Record DecoderKwargs := {
  kw_input_ids : option Tensor;
  kw_attention_mask : option Tensor;
  kw_encoder_hidden_states : option Tensor;
  kw_past_key_values : option Cache;
  kw_use_cache : option bool;
}.

(** The output of the text decoder (CausalLMOutputWithCrossAttentions). *)
Record DecoderOutput := {
  loss : option Tensor;
  logits : Tensor;
  past_key_values : option Cache;
  decoder_hidden_states : option (list Tensor);
  decoder_attentions : option (list Tensor);
  cross_attentions : option (list Tensor);
}.

Record BlipForConditionalGeneration := {
  vision_model : Module Tensor VisionOutput;
  text_decoder : Module DecoderKwargs DecoderOutput;
}.

(** [model.eval()] switches every sub-module to inference mode. *)
Definition model_eval (model : BlipForConditionalGeneration)
    : BlipForConditionalGeneration :=
  {| vision_model := module_eval (vision_model model);
     text_decoder := module_eval (text_decoder model) |}.

(** ** The two wrappers *)

Module VisionEncoderWrapper.
Record t := { encoder : Module Tensor VisionOutput }.

Definition init (model : BlipForConditionalGeneration) : t :=
  {| encoder := vision_model model |}.

Definition forward (self : t) (g : Rng) (pixel_values : Tensor)
    : Result Tensor :=
  result_map last_hidden_state (module_call (encoder self) g pixel_values).
End VisionEncoderWrapper.

Module TextDecoderWrapper.
Record t := { decoder : Module DecoderKwargs DecoderOutput }.

Definition init (model : BlipForConditionalGeneration) : t :=
  {| decoder := text_decoder model |}.

Definition forward (self : t) (g : Rng)
    (input_ids attention_mask encoder_hidden_states : Tensor)
    : Result Tensor :=
  result_map logits
    (module_call (decoder self) g
       {| kw_input_ids := Some input_ids;
          kw_attention_mask := Some attention_mask;
          kw_encoder_hidden_states := Some encoder_hidden_states;
          kw_past_key_values := None;
          kw_use_cache := None |}).
End TextDecoderWrapper.

(** ** The file system

    Paths are lists of components, relative to the working directory; the
    empty path is the working directory itself. *)

Inductive Node :=
  | Dir
  | File (data : string).

Abbreviation Path := (list string).
Abbreviation FS := (gmap (list string) Node).

Definition node (fs : FS) (p : Path) : option Node :=
  match p with
  | [] => Some Dir
  | _ => fs !! p
  end.

Definition parent (p : Path) : Path := removelast p.
Definition basename (p : Path) : string := List.last p "".

(** [p.exists()] *)
Definition Path_exists (p : Path) (fs : FS) : bool :=
  bool_decide (is_Some (node fs p)).

(** [p.mkdir(exist_ok=True)], without [parents]. *)
Definition Path_mkdir (p : Path) (fs : FS) : FS * Result unit :=
  match node fs p with
  | Some Dir => (fs, Ok ())
  | Some (File _) => (fs, Raise FileExistsError)
  | None =>
      match node fs (parent p) with
      | Some Dir => (<[p := Dir]> fs, Ok ())
      | Some (File _) => (fs, Raise NotADirectoryError)
      | None => (fs, Raise FileNotFoundError)
      end
  end.

(** [shutil.copy(src, dst)]: a directory as destination receives the file
    under the source's base name. *)
Definition shutil_copy (src dst : Path) (fs : FS) : FS * Result Path :=
  let dst' := match node fs dst with
              | Some Dir => dst ++ [basename src]
              | _ => dst
              end in
  match node fs src with
  | None => (fs, Raise FileNotFoundError)
  | Some Dir => (fs, Raise IsADirectoryError)
  | Some (File data) =>
      if decide (src = dst') then (fs, Raise (LibraryError "SameFileError"))
      else
        match node fs dst' with
        | Some Dir => (fs, Raise IsADirectoryError)
        | _ =>
            match node fs (parent dst') with
            | Some Dir => (<[dst' := File data]> fs, Ok dst')
            | Some (File _) => (fs, Raise NotADirectoryError)
            | None => (fs, Raise FileNotFoundError)
            end
        end
  end.

(** The entries of a directory: the paths one component below it. *)
Definition is_child (p q : Path) : Prop := q ≠ [] ∧ parent q = p.

#[global] Instance is_child_dec p q : Decision (is_child p q).
Proof. unfold is_child. apply _. Defined.

Definition children (p : Path) (fs : FS) : list Path :=
  filter (is_child p) (fst <$> map_to_list fs).

(** [p.iterdir()], consumed at once. *)
Definition Path_iterdir (p : Path) (fs : FS) : FS * Result (list Path) :=
  match node fs p with
  | Some Dir => (fs, Ok (children p fs))
  | Some (File _) => (fs, Raise NotADirectoryError)
  | None => (fs, Raise FileNotFoundError)
  end.

(** [p.stat().st_size]; the size of a directory entry is the file
    system's business. *)
Definition Path_stat_size (dir_size : nat) (p : Path) (fs : FS)
    : FS * Result nat :=
  match node fs p with
  | Some (File data) => (fs, Ok (String.length data))
  | Some Dir => (fs, Ok dir_size)
  | None => (fs, Raise FileNotFoundError)
  end.

(** The order of [sorted] on paths: component by component, strings by
    their characters. *)
Fixpoint path_leb (p q : Path) : bool :=
  match p, q with
  | [], _ => true
  | _ :: _, [] => false
  | a :: p', b :: q' =>
      match String.compare a b with
      | Lt => true
      | Eq => path_leb p' q'
      | Gt => false
      end
  end.

Definition path_le (p q : Path) : Prop := path_leb p q = true.

#[global] Instance path_le_dec p q : Decision (path_le p q).
Proof. unfold path_le. apply _. Defined.

Definition sorted (l : list Path) : list Path := merge_sort path_le l.

(** ** Arguments of [torch.onnx.export] *)

Record ExportArgs := {
  args : list Tensor;
  f : Path;
  input_names : list string;
  output_names : list string;
  dynamic_axes : gmap string (gmap nat string);
  opset_version : nat;
}.

(** ** The tokenizer and the processor *)

Record Tokenizer := { vocab_file : option Path }.
Record BlipProcessor := { tokenizer : Tokenizer }.

(** ** Library calls, as the run records them *)

Inductive Call :=
  | CallMkdir (p : Path)
  | CallProcessorFromPretrained (id : string)
  | CallModelFromPretrained (id : string)
  | CallOnnxExport (fwd : Rng → list Tensor → Result Tensor) (a : ExportArgs)
  | CallSavePretrained (dir : Path)
  | CallPath (o : option Path)
  | CallCopy (src dst : Path)
  | CallIterdir (p : Path)
  | CallStat (p : Path).

(** What [print] writes: a line of text, or a manifest line, whose size
    column is kept as the byte count it is formatted from. *)
Inductive Line :=
  | Text (s : string)
  | Manifest (name : string) (st_size : nat).

(** The libraries the script calls into.  Each may change the file system
    and may raise. *)
Record World := {
  BlipProcessor_from_pretrained : string → FS → FS * Result BlipProcessor;
  BlipForConditionalGeneration_from_pretrained :
    string → FS → FS * Result BlipForConditionalGeneration;
  torch_onnx_export :
    (Rng → list Tensor → Result Tensor) → ExportArgs → Rng → FS →
    FS * Result unit;
  save_pretrained : Tokenizer → Path → FS → FS * Result unit;
  randn_samples : Rng → nat → Q;
  dir_st_size : nat;
}.

(** ** The monad of the script *)

Record State := {
  fs : FS;
  rng : Rng;
  stdout : list Line;
  calls : list (Call * option Exn);
}.

Definition M (A : Type) : Type := State → State * Result A.

#[global] Instance M_ret : MRet M := λ A a s, (s, Ok a).

#[global] Instance M_bind : MBind M := λ A B k m s,
  match m s with
  | (s', Ok a) => k a s'
  | (s', Raise e) => (s', Raise e)
  end.

(** A library call: the file system changes, the call and its outcome are
    recorded, the result or the exception is passed on. *)
Definition call {A} (c : Call) (op : FS → FS * Result A) : M A := λ s,
  let '(fs', r) := op (fs s) in
  ({| fs := fs'; rng := rng s; stdout := stdout s;
      calls := calls s ++ [(c, outcome r)] |}, r).

Definition print (l : Line) : M unit := λ s,
  ({| fs := fs s; rng := rng s; stdout := stdout s ++ [l];
      calls := calls s |}, Ok ()).

Definition get_rng : M Rng := λ s, (s, Ok (rng s)).

(** [p.exists()] on the current file system. *)
Definition exists_ (p : Path) : M bool := λ s, (s, Ok (Path_exists p (fs s))).

(** [torch.randn] draws from the default generator and advances it. *)
Definition randn (w : World) (dims : list N) : M Tensor := λ s,
  ({| fs := fs s; rng := (rng s + numel dims)%N;
      stdout := stdout s; calls := calls s |},
   Ok (torch_randn (randn_samples w (rng s)) dims)).

(** [Path(x)] raises on [None]. *)
Definition Path_new (o : option Path) (fs : FS) : FS * Result Path :=
  match o with
  | Some p => (fs, Ok p)
  | None => (fs, Raise TypeError)
  end.

(** ** The script *)

Definition MODEL_ID : string := "Salesforce/blip-image-captioning-base".
Definition OUTPUT_DIR : Path := ["models"].

(** [OUTPUT_DIR / name] *)
Definition out (name : string) : Path := OUTPUT_DIR ++ [name].

(** How the exporter calls each wrapper with the tuple of inputs. *)
Definition vision_forward (self : VisionEncoderWrapper.t)
    (g : Rng) (xs : list Tensor) : Result Tensor :=
  match xs with
  | [pixel_values] => VisionEncoderWrapper.forward self g pixel_values
  | _ => Raise TypeError
  end.

Definition text_forward (self : TextDecoderWrapper.t)
    (g : Rng) (xs : list Tensor) : Result Tensor :=
  match xs with
  | [input_ids; attention_mask; encoder_hidden_states] =>
      TextDecoderWrapper.forward self g
        input_ids attention_mask encoder_hidden_states
  | _ => Raise TypeError
  end.

Definition vision_export_args (dummy_image : Tensor) : ExportArgs :=
  {| args := [dummy_image];
     f := out "blip_vision_encoder.onnx";
     input_names := ["pixel_values"];
     output_names := ["image_features"];
     dynamic_axes :=
       <["pixel_values" := {[0 := "batch"]}]>
       (<["image_features" := {[0 := "batch"]}]> ∅);
     opset_version := 17 |}.

Definition seq_len : N := 10.

Definition text_export_args
    (dummy_input_ids dummy_attention_mask dummy_encoder_states : Tensor)
    : ExportArgs :=
  {| args := [dummy_input_ids; dummy_attention_mask; dummy_encoder_states];
     f := out "blip_text_decoder.onnx";
     input_names := ["input_ids"; "attention_mask"; "encoder_hidden_states"];
     output_names := ["logits"];
     dynamic_axes :=
       <["input_ids" := <[0 := "batch"]> {[1 := "seq_len"]}]>
       (<["attention_mask" := <[0 := "batch"]> {[1 := "seq_len"]}]>
       (<["encoder_hidden_states" := {[0 := "batch"]}]>
       (<["logits" := <[0 := "batch"]> {[1 := "seq_len"]}]> ∅)));
     opset_version := 17 |}.

Definition export (w : World)
    (fwd : Rng → list Tensor → Result Tensor) (a : ExportArgs) : M unit :=
  g ← get_rng;
  call (CallOnnxExport fwd a) (torch_onnx_export w fwd a g).

(** Lines 26 to 33: configuration and model loading. *)
Definition load (w : World) : M (BlipProcessor * BlipForConditionalGeneration) :=
  call (CallMkdir OUTPUT_DIR) (Path_mkdir OUTPUT_DIR);;
  print (Text ("[1/5] Loading BLIP-base model from Hugging Face: " +:+ MODEL_ID));;
  processor ← call (CallProcessorFromPretrained MODEL_ID)
                   (BlipProcessor_from_pretrained w MODEL_ID);
  model ← call (CallModelFromPretrained MODEL_ID)
               (BlipForConditionalGeneration_from_pretrained w MODEL_ID);
  mret (processor, model_eval model).

(** Lines 36 to 58. *)
Definition export_vision (w : World) (model : BlipForConditionalGeneration)
    : M unit :=
  print (Text "[2/5] Exporting vision encoder to ONNX...");;
  let vision_wrapper := VisionEncoderWrapper.init model in
  dummy_image ← randn w [1; 3; 384; 384]%N;
  export w (vision_forward vision_wrapper) (vision_export_args dummy_image);;
  print (Text "    ✅ Vision encoder exported.").

(** Lines 61 to 95. *)
Definition export_text (w : World) (model : BlipForConditionalGeneration)
    : M unit :=
  print (Text "[3/5] Exporting text decoder to ONNX...");;
  let text_wrapper := TextDecoderWrapper.init model in
  let dummy_input_ids := torch_ones [1; seq_len]%N torch_long in
  let dummy_attention_mask := torch_ones [1; seq_len]%N torch_long in
  dummy_encoder_states ← randn w [1; 577; 768]%N;
  export w (text_forward text_wrapper)
    (text_export_args dummy_input_ids dummy_attention_mask
       dummy_encoder_states);;
  print (Text "    ✅ Text decoder exported.").

(** Lines 98 to 108. *)
Definition save_tokenizer (w : World) (processor : BlipProcessor) : M unit :=
  print (Text "[4/5] Saving tokenizer files...");;
  call (CallSavePretrained OUTPUT_DIR)
       (save_pretrained w (tokenizer processor) OUTPUT_DIR);;
  let vocab_src := out "vocab.txt" in
  present ← exists_ vocab_src;
  ((if present : bool then mret ()
    else
      src ← call (CallPath (vocab_file (tokenizer processor)))
                 (Path_new (vocab_file (tokenizer processor)));
      call (CallCopy src vocab_src) (shutil_copy src vocab_src);;
      mret ()) : M unit);;
  print (Text "    ✅ Tokenizer files saved.").

(** The loop of lines 112 to 114. *)
Fixpoint report_loop (w : World) (entries : list Path) : M unit :=
  match entries with
  | [] => mret ()
  | e :: rest =>
      st_size ← call (CallStat e) (Path_stat_size (dir_st_size w) e);
      print (Manifest (basename e) st_size);;
      report_loop w rest
  end.

Definition next_step_message : string :=
  "
━━━━━━━━━━━━━━━━━━━━━━━━━━━━━━━━━━━━━━━━━━━
 Next step: push models to your Android device
 Run:  adb push models/ /sdcard/Android/data/com.example.offlinecaptioning/files/
━━━━━━━━━━━━━━━━━━━━━━━━━━━━━━━━━━━━━━━━━━━
".

(** Lines 111 to 121. *)
Definition report (w : World) : M unit :=
  print (Text "
[5/5] Export complete! Generated files:");;
  entries ← call (CallIterdir OUTPUT_DIR) (Path_iterdir OUTPUT_DIR);
  report_loop w (sorted entries);;
  print (Text next_step_message).

Definition main (w : World) : M unit :=
  '(processor, model) ← load w;
  export_vision w model;;
  export_text w model;;
  save_tokenizer w processor;;
  report w.

Definition initial (fs0 : FS) (g : Rng) : State :=
  {| fs := fs0; rng := g; stdout := []; calls := [] |}.

(** One run of the script from a file system and a generator state. *)
Definition run (w : World) (fs0 : FS) (g : Rng) : State * Result unit :=
  main w (initial fs0 g).

(** ** A small world to run the script in

    The vision sub-module perturbs its output with the generator state
    while in training mode (as dropout does) and ignores it in inference
    mode; the exporter runs the wrapper once and writes the graph file; the
    tokenizer saves only its packaged bundle. *)

Module Demo.

Definition features (g : Rng) (dims : list N) : Tensor :=
  {| shape := dims; dtype := torch_float32;
     item := λ _, inject_Z (Z.of_N g) |}.

Definition vision_impl (train : bool) (g : Rng) (x : Tensor)
    : Result VisionOutput :=
  match shape x with
  | b :: chw =>
      if decide (chw = [3; 384; 384]%N) then
        let h := features (if train then g else 0%N) [b; 577; 768]%N in
        Ok {| last_hidden_state := h;
              pooler_output := features 0%N [b; 768]%N;
              vision_hidden_states := None;
              vision_attentions := None |}
      else Raise (LibraryError "shape mismatch")
  | [] => Raise (LibraryError "shape mismatch")
  end.

Definition vocab_size : N := 30524.

Definition decoder_impl (train : bool) (g : Rng) (kw : DecoderKwargs)
    : Result DecoderOutput :=
  match kw_input_ids kw with
  | Some ids =>
      match shape ids with
      | [b; l] =>
          let z := features (if train then g else 0%N) [b; l; vocab_size] in
          Ok {| loss := None;
                logits := z;
                past_key_values := Some [(z, z)];
                decoder_hidden_states := None;
                decoder_attentions := None;
                cross_attentions := None |}
      | _ => Raise (LibraryError "shape mismatch")
      end
  | None => Raise (LibraryError "input_ids required")
  end.

Definition model : BlipForConditionalGeneration :=
  {| vision_model := {| training := true; impl := vision_impl |};
     text_decoder := {| training := true; impl := decoder_impl |} |}.

Definition cached_vocab : Path := ["cache"; "vocab.txt"].

Definition processor : BlipProcessor :=
  {| tokenizer := {| vocab_file := Some cached_vocab |} |}.

(** Writing a file creates or overwrites it; a directory is in the way. *)
Definition write_file (p : Path) (data : string) (fs0 : FS)
    : FS * Result unit :=
  match fs0 !! p with
  | Some Dir => (fs0, Raise IsADirectoryError)
  | _ => (<[p := File data]> fs0, Ok ())
  end.

Definition exporter (fwd : Rng → list Tensor → Result Tensor)
    (a : ExportArgs) (g : Rng) (fs0 : FS) : FS * Result unit :=
  match fwd g (args a) with
  | Ok _ => write_file (f a) "onnx" fs0
  | Raise e => (fs0, Raise e)
  end.

Definition world : World :=
  {| BlipProcessor_from_pretrained := λ _ fs0, (fs0, Ok processor);
     BlipForConditionalGeneration_from_pretrained := λ _ fs0, (fs0, Ok model);
     torch_onnx_export := exporter;
     save_pretrained := λ _ dir, write_file (dir ++ ["tokenizer.json"]) "{}";
     randn_samples := λ g _, inject_Z (Z.of_N g);
     dir_st_size := 4096 |}.

(** A world whose model registry is unreachable. *)
Definition offline : World :=
  {| BlipProcessor_from_pretrained := λ _ fs0,
       (fs0, Raise (LibraryError "unreachable"));
     BlipForConditionalGeneration_from_pretrained := λ _ fs0,
       (fs0, Raise (LibraryError "unreachable"));
     torch_onnx_export := exporter;
     save_pretrained := λ _ _ fs0, (fs0, Ok ());
     randn_samples := λ g _, inject_Z (Z.of_N g);
     dir_st_size := 4096 |}.

(** A working directory with the downloaded vocabulary and a file left in
    the output directory by an earlier run. *)
Definition disk : FS :=
  <[["cache"] := Dir]>
  (<[cached_vocab := File "[PAD]"]>
  (<[["models"] := Dir]>
  (<[["models"; "old.bin"] := File "stale"]> ∅))).

End Demo.

(** ** The exported graph's declared shapes

    The contract of [dynamic_axes] in [torch.onnx.export]: an axis listed
    for a tensor name becomes a named, variable dimension of the graph;
    every other axis is fixed to the size it had during tracing. *)

Inductive Dim :=
  | dim_param (name : string)
  | dim_value (n : N).

Definition axis_name (a : ExportArgs) (name : string) (axis : nat)
    : option string :=
  dynamic_axes a !! name ≫= (.!! axis).

Definition is_dynamic (a : ExportArgs) (name : string) (axis : nat) : bool :=
  bool_decide (is_Some (axis_name a name axis)).

Definition graph_shape (a : ExportArgs) (name : string) (traced : list N)
    : list Dim :=
  imap (λ i d, match axis_name a name i with
               | Some s => dim_param s
               | None => dim_value d
               end) traced.

(** The graph inputs, in order, with the shapes declared for them. *)
Definition declared_inputs (a : ExportArgs) : list (string * list Dim) :=
  zip_with (λ name t, (name, graph_shape a name (shape t)))
    (input_names a) (args a).

(** * Vocabulary of the properties

    Predicates on runs and on their records of calls, and the states the
    primitives of the monad lead to. *)

(** The keyword arguments the text wrapper hands to the decoder. *)
Definition wrapper_kwargs (input_ids attention_mask encoder_hidden_states : Tensor)
    : DecoderKwargs :=
  {| kw_input_ids := Some input_ids;
     kw_attention_mask := Some attention_mask;
     kw_encoder_hidden_states := Some encoder_hidden_states;
     kw_past_key_values := None;
     kw_use_cache := None |}.

(** [wp m Q E s]: from state [s], [m] either returns [a] in a state with
    [Q a] or raises [e] in a state with [E e]. *)
Definition wp {A} (m : M A) (Q : A → State → Prop) (E : Exn → State → Prop)
    (s : State) : Prop :=
  match m s with
  | (s', Ok a) => Q a s'
  | (s', Raise e) => E e s'
  end.

(** The state after a recorded call, after a printed line, after a draw
    from the generator. *)
Definition with_call (s : State) (fs' : FS) (c : Call) (o : option Exn)
    : State :=
  {| fs := fs'; rng := rng s; stdout := stdout s;
     calls := calls s ++ [(c, o)] |}.

Definition with_line (s : State) (l : Line) : State :=
  {| fs := fs s; rng := rng s; stdout := stdout s ++ [l]; calls := calls s |}.

Definition with_rng (s : State) (g : Rng) : State :=
  {| fs := fs s; rng := g; stdout := stdout s; calls := calls s |}.

(** A record in which every call succeeded. *)
Definition clean (l : list (Call * option Exn)) : Prop :=
  Forall (λ c, c.2 = None) l.

(** A [stat] call of the manifest loop. *)
Definition is_stat (c : Call * option Exn) : Prop := ∃ p, c.1 = CallStat p.

(** The manifest lines name the entry [e]. *)
Definition listed (e : Path) (lines : list Line) : Prop :=
  ∃ st_size, Manifest (basename e) st_size ∈ lines.

(** The state after the manifest loop has recorded [stats] and printed
    [lines]. *)
Definition after_loop (s : State) (stats : list (Call * option Exn))
    (lines : list Line) : State :=
  {| fs := fs s; rng := rng s; stdout := stdout s ++ lines;
     calls := calls s ++ stats |}.

(** A model the registry of [w] can hand out. *)
Definition loaded (w : World) (model : BlipForConditionalGeneration) : Prop :=
  ∃ id fs0 fs1,
    BlipForConditionalGeneration_from_pretrained w id fs0 = (fs1, Ok model).

(** The call sites of the script. *)
Inductive issued (w : World) : Call → Prop :=
  | issued_mkdir : issued w (CallMkdir OUTPUT_DIR)
  | issued_processor : issued w (CallProcessorFromPretrained MODEL_ID)
  | issued_model : issued w (CallModelFromPretrained MODEL_ID)
  | issued_vision model g :
      loaded w model →
      issued w
        (CallOnnxExport
           (vision_forward (VisionEncoderWrapper.init (model_eval model)))
           (vision_export_args
              (torch_randn (randn_samples w g) [1; 3; 384; 384]%N)))
  | issued_text model g :
      loaded w model →
      issued w
        (CallOnnxExport
           (text_forward (TextDecoderWrapper.init (model_eval model)))
           (text_export_args
              (torch_ones [1; seq_len]%N torch_long)
              (torch_ones [1; seq_len]%N torch_long)
              (torch_randn (randn_samples w g) [1; 577; 768]%N)))
  | issued_save : issued w (CallSavePretrained OUTPUT_DIR)
  | issued_path o : issued w (CallPath o)
  | issued_copy src : issued w (CallCopy src (out "vocab.txt"))
  | issued_iterdir : issued w (CallIterdir OUTPUT_DIR)
  | issued_stat p : issued w (CallStat p).

(** The export calls of a run, in order. *)
Definition exports (l : list (Call * option Exn)) : list ExportArgs :=
  omap (λ c, match c.1 with
             | CallOnnxExport _ a => Some a
             | _ => None
             end) l.

(** What disabling the stochastic layers means for a model: in inference
    mode neither sub-module consults the random generator. *)
Definition eval_deterministic (model : BlipForConditionalGeneration) : Prop :=
  (∀ g1 g2 x, impl (vision_model model) false g1 x
              = impl (vision_model model) false g2 x) ∧
  (∀ g1 g2 kw, impl (text_decoder model) false g1 kw
               = impl (text_decoder model) false g2 kw).

(** The modules a run hands to the exporter. *)
Definition traced (l : list (Call * option Exn))
    : list (Rng → list Tensor → Result Tensor) :=
  omap (λ c, match c.1 with
             | CallOnnxExport fwd _ => Some fwd
             | _ => None
             end) l.

(** The step of the pipeline a library call belongs to: 0 for the
    configuration block, then the five numbered steps. *)
Definition stage (c : Call) : nat :=
  match c with
  | CallMkdir _ => 0
  | CallProcessorFromPretrained _ | CallModelFromPretrained _ => 1
  | CallOnnxExport _ a =>
      if decide (f a = out "blip_vision_encoder.onnx") then 2 else 3
  | CallSavePretrained _ | CallPath _ | CallCopy _ _ => 4
  | CallIterdir _ | CallStat _ => 5
  end.

(** The steps of a record of calls, in the order of the calls. *)
Definition stages (l : list (Call * option Exn)) : list nat :=
  (λ c, stage c.1) <$> l.

(** A record of calls that stopped at the first failure: either every
    call succeeded, or all but the last did and the last raised what the
    run raises. *)
Definition halted (l : list (Call * option Exn)) (r : Result unit) : Prop :=
  match r with
  | Ok _ => clean l
  | Raise e => ∃ pre c, l = pre ++ [(c, Some e)] ∧ clean pre
  end.

(** What the order of the steps and halting mean for a run with record
    [l] and result [r]. *)
Definition in_order (l : list (Call * option Exn)) (r : Result unit) : Prop :=
  StronglySorted le (stages l) ∧
  halted l r ∧
  (r = Ok () → ∀ k : nat, (k ≤ 5)%nat → k ∈ stages l).

(** [fs1] has every entry of [fs0], and what was a directory still is. *)
Definition keeps (fs0 fs1 : FS) : Prop :=
  ∀ p n, fs0 !! p = Some n →
         ∃ n', fs1 !! p = Some n' ∧ (n = Dir → n' = Dir).

(** The libraries add and overwrite files; they delete nothing. *)
Definition never_deletes (w : World) : Prop :=
  (∀ id fs0, keeps fs0 (BlipProcessor_from_pretrained w id fs0).1) ∧
  (∀ id fs0,
      keeps fs0 (BlipForConditionalGeneration_from_pretrained w id fs0).1) ∧
  (∀ fwd a g fs0, keeps fs0 (torch_onnx_export w fwd a g fs0).1) ∧
  (∀ t dir fs0, keeps fs0 (save_pretrained w t dir fs0).1).

(** What a run from [fs0] does to the output directory. *)
Definition kept_and_listed (fs0 : FS) (final : State * Result unit) : Prop :=
  (∃ o, calls final.1 !! 0 = Some (CallMkdir OUTPUT_DIR, o)) ∧
  (calls final.1 !! 0 = Some (CallMkdir OUTPUT_DIR, None) →
   fs final.1 !! OUTPUT_DIR = Some Dir) ∧
  ((∀ data, fs0 !! OUTPUT_DIR ≠ Some (File data)) →
   fs final.1 !! OUTPUT_DIR = Some Dir) ∧
  keeps fs0 (fs final.1) ∧
  (final.2 = Ok () →
   ∀ name, is_Some (fs final.1 !! out name) →
           listed (out name) (stdout final.1)).

(** ** What a run prints and lists *)

(** The text lines among what was printed, in order. *)
Definition texts (l : list Line) : list string :=
  omap (λ x, match x with
             | Text s => Some s
             | Manifest _ _ => None
             end) l.


(** The text lines of lines 30 to 111, in the order of the script. *)
Definition progress_before_manifest : list string :=
  [ "[1/5] Loading BLIP-base model from Hugging Face: " +:+ MODEL_ID;
    "[2/5] Exporting vision encoder to ONNX...";
    "    ✅ Vision encoder exported.";
    "[3/5] Exporting text decoder to ONNX...";
    "    ✅ Text decoder exported.";
    "[4/5] Saving tokenizer files...";
    "    ✅ Tokenizer files saved.";
    "
[5/5] Export complete! Generated files:" ].

Definition progress_lines : list string :=
  progress_before_manifest ++ [next_step_message].

(** The line that announces step [k]. *)
Definition checkpoint (k : nat) : option string :=
  match k with
  | 1 => progress_before_manifest !! 0
  | 2 => progress_before_manifest !! 1
  | 3 => progress_before_manifest !! 3
  | 4 => progress_before_manifest !! 5
  | 5 => progress_before_manifest !! 7
  | _ => None
  end.

(** [e.stat().st_size] for an entry of [fs0]. *)
Definition st_size_of (w : World) (fs0 : FS) (e : Path) : nat :=
  match node fs0 e with
  | Some (File data) => String.length data
  | _ => dir_st_size w
  end.

(** The entries of the output directory in the order of the manifest. *)
Definition listing (fs0 : FS) : list Path := sorted (children OUTPUT_DIR fs0).

Definition manifest_line (w : World) (fs0 : FS) (e : Path) : Line :=
  Manifest (basename e) (st_size_of w fs0 e).

Definition stat_ok (e : Path) : Call * option Exn := (CallStat e, None).


(** Libraries that leave the file system as it is. *)
Definition inert (w : World) : Prop :=
  (∀ id fs0, (BlipProcessor_from_pretrained w id fs0).1 = fs0) ∧
  (∀ id fs0,
      (BlipForConditionalGeneration_from_pretrained w id fs0).1 = fs0) ∧
  (∀ fwd a g fs0, (torch_onnx_export w fwd a g fs0).1 = fs0) ∧
  (∀ t dir fs0, (save_pretrained w t dir fs0).1 = fs0).

(** The two modules the script builds from one model. *)
Definition vision_module (model : BlipForConditionalGeneration)
    : Rng → list Tensor → Result Tensor :=
  vision_forward (VisionEncoderWrapper.init (model_eval model)).

Definition text_module (model : BlipForConditionalGeneration)
    : Rng → list Tensor → Result Tensor :=
  text_forward (TextDecoderWrapper.init (model_eval model)).

(** A world whose libraries answer without touching the files. *)
Module Dry.

Definition world : World :=
  {| BlipProcessor_from_pretrained := λ _ fs0, (fs0, Ok Demo.processor);
     BlipForConditionalGeneration_from_pretrained := λ _ fs0,
       (fs0, Ok Demo.model);
     torch_onnx_export := λ _ _ _ fs0, (fs0, Ok ());
     save_pretrained := λ _ _ fs0, (fs0, Ok ());
     randn_samples := λ g _, inject_Z (Z.of_N g);
     dir_st_size := 4096 |}.

End Dry.

#[global] Instance Exn_eq_dec : EqDecision Exn.
Proof. solve_decision. Defined.

(** The outcomes of the calls of step [k], in order. *)
Definition step_outcomes (k : nat) (l : list (Call * option Exn))
    : list (option Exn) :=
  omap (λ c, if decide (stage c.1 = k) then Some c.2 else None) l.

(** Step [k] was reached and none of its calls raised. *)
Definition step_done (k : nat) (l : list (Call * option Exn)) : Prop :=
  step_outcomes k l ≠ [] ∧ Forall (λ o, o = None) (step_outcomes k l).

#[global] Instance step_done_dec k l : Decision (step_done k l).
Proof. unfold step_done. apply _. Defined.

(** The success line of each step that has one. *)
Definition success_lines : list (nat * string) :=
  [ (2, "    ✅ Vision encoder exported.");
    (3, "    ✅ Text decoder exported.");
    (4, "    ✅ Tokenizer files saved.") ].

(** * Properties *)

(** ** The wrappers *)

(** C2. The forward function of the vision wrapper returns one tensor, the
    last hidden state of what the vision sub-module returns for the pixel
    batch; it raises exactly when the sub-module raises; and nothing else
    the sub-module returns (pooled embedding, hidden states, attentions)
    reaches the result: two sub-modules whose outputs agree on the last
    hidden state give the same result. *)
Theorem vision_forward_last_hidden_state :
  ∀ (self : VisionEncoderWrapper.t) (g : Rng) (pixel_values : Tensor),
    (∀ o, module_call (VisionEncoderWrapper.encoder self) g pixel_values = Ok o →
          VisionEncoderWrapper.forward self g pixel_values
          = Ok (last_hidden_state o)) ∧
    (∀ e, module_call (VisionEncoderWrapper.encoder self) g pixel_values = Raise e →
          VisionEncoderWrapper.forward self g pixel_values = Raise e) ∧
    (∀ (other : VisionEncoderWrapper.t) o o',
        module_call (VisionEncoderWrapper.encoder self) g pixel_values = Ok o →
        module_call (VisionEncoderWrapper.encoder other) g pixel_values = Ok o' →
        last_hidden_state o = last_hidden_state o' →
        VisionEncoderWrapper.forward self g pixel_values
        = VisionEncoderWrapper.forward other g pixel_values).
Proof.
  intros self g x. unfold VisionEncoderWrapper.forward. repeat split.
  - intros o ->. reflexivity.
  - intros e ->. reflexivity.
  - intros other o o' -> -> Heq. simpl. by rewrite Heq.
Qed.

Lemma vision_forward_last_hidden_state_witness :
  let self := VisionEncoderWrapper.init (model_eval Demo.model) in
  let x := torch_ones [1; 3; 384; 384]%N torch_float32 in
  shape <$> VisionEncoderWrapper.forward self 7%N x
  = Ok [1; 577; 768]%N.
Proof.
  intros self x.
  destruct (vision_forward_last_hidden_state self 7%N x) as (Hok & _ & _).
  rewrite (Hok _ eq_refl). reflexivity.
Defined.

(** C3. The forward function of the text wrapper returns one tensor, the
    logits of what the decoder returns for the three inputs, and raises
    exactly when the decoder raises.  No cache goes in: the wrapper cannot
    tell apart two decoders that agree whenever no cache is passed.  No
    cache comes out: two decoders whose outputs agree on the logits (and
    differ, say, in the cache they return) give the same result.  The
    result is a function of the wrapper's sub-module and the three inputs
    of this invocation alone. *)
Theorem text_forward_logits_no_cache :
  ∀ (self : TextDecoderWrapper.t) (g : Rng)
    (input_ids attention_mask encoder_hidden_states : Tensor),
    let kw := wrapper_kwargs input_ids attention_mask encoder_hidden_states in
    let result := TextDecoderWrapper.forward self g
                    input_ids attention_mask encoder_hidden_states in
    (∀ o, module_call (TextDecoderWrapper.decoder self) g kw = Ok o →
          result = Ok (logits o)) ∧
    (∀ e, module_call (TextDecoderWrapper.decoder self) g kw = Raise e →
          result = Raise e) ∧
    (∀ other : TextDecoderWrapper.t,
        training (TextDecoderWrapper.decoder other)
        = training (TextDecoderWrapper.decoder self) →
        (∀ t g' kw', kw_past_key_values kw' = None →
           impl (TextDecoderWrapper.decoder other) t g' kw'
           = impl (TextDecoderWrapper.decoder self) t g' kw') →
        TextDecoderWrapper.forward other g
          input_ids attention_mask encoder_hidden_states = result) ∧
    (∀ (other : TextDecoderWrapper.t) o o',
        module_call (TextDecoderWrapper.decoder self) g kw = Ok o →
        module_call (TextDecoderWrapper.decoder other) g kw = Ok o' →
        logits o = logits o' →
        TextDecoderWrapper.forward other g
          input_ids attention_mask encoder_hidden_states = result).
Proof.
  intros self g ids mask enc kw result.
  subst kw result. unfold TextDecoderWrapper.forward, wrapper_kwargs.
  repeat split.
  - intros o ->. reflexivity.
  - intros e ->. reflexivity.
  - intros other Ht Himpl. unfold module_call.
    rewrite Ht, Himpl; reflexivity.
  - intros other o o' -> -> Heq. simpl. by rewrite Heq.
Qed.

Lemma text_forward_logits_no_cache_witness :
  let self := TextDecoderWrapper.init (model_eval Demo.model) in
  let ids := torch_ones [2; 5]%N torch_long in
  let enc := torch_ones [2; 577; 768]%N torch_float32 in
  (∃ o, module_call (TextDecoderWrapper.decoder self) 3%N
          (wrapper_kwargs ids ids enc) = Ok o ∧
        past_key_values o ≠ None) ∧
  shape <$> TextDecoderWrapper.forward self 3%N ids ids enc
  = Ok [2; 5; Demo.vocab_size]%N.
Proof.
  intros self ids enc. split.
  - eexists. split; [reflexivity | discriminate].
  - destruct (text_forward_logits_no_cache self 3%N ids ids enc)
      as (Hok & _ & _ & _).
    rewrite (Hok _ eq_refl). reflexivity.
Defined.

(** ** Dynamic axes *)

Lemma batch_only_dynamic (axis : nat) :
  is_Some (({[0 := "batch"]} : gmap nat string) !! axis) ↔ axis = 0.
Proof.
  unfold is_Some. setoid_rewrite lookup_singleton_Some. naive_solver.
Qed.

Lemma batch_seq_dynamic (axis : nat) :
  is_Some ((<[0 := "batch"]> {[1 := "seq_len"]} : gmap nat string) !! axis) ↔
  axis = 0 ∨ axis = 1.
Proof.
  unfold is_Some. setoid_rewrite lookup_insert_Some.
  setoid_rewrite lookup_singleton_Some. naive_solver.
Qed.

(** Case analysis on the tensor name looked up in a literal dictionary. *)
Ltac case_key name key :=
  destruct (decide (name = key)) as [-> | ?];
  [ rewrite lookup_insert_eq
  | rewrite lookup_insert_ne by done ].

(** C5. The vision export declares as dynamic the batch axis of
    [pixel_values] and of [image_features] and nothing else: the graph
    input is batch x 3 x 384 x 384, and the two trailing dimensions of the
    output are whatever the trace produced. *)
Theorem vision_dynamic_axes_batch_only :
  ∀ (g : nat → Q),
    let a := vision_export_args (torch_randn g [1; 3; 384; 384]%N) in
    (∀ name axis,
        is_dynamic a name axis = true ↔
        (name, axis) ∈ [("pixel_values", 0); ("image_features", 0)]) ∧
    declared_inputs a
    = [("pixel_values",
        [dim_param "batch"; dim_value 3; dim_value 384; dim_value 384])] ∧
    (∀ b n d, graph_shape a "image_features" [b; n; d]
              = [dim_param "batch"; dim_value n; dim_value d]).
Proof.
  intros g a. split; [| split; [reflexivity | intros; reflexivity]].
  intros name axis. unfold is_dynamic, axis_name.
  rewrite bool_decide_eq_true. subst a. cbn [dynamic_axes vision_export_args].
  rewrite !elem_of_cons, elem_of_nil.
  case_key name "pixel_values"; [| case_key name "image_features"];
    [| | rewrite lookup_empty]; cbn [mbind option_bind];
    rewrite ?batch_only_dynamic, ?is_Some_alt; naive_solver.
Qed.

(** C4. The text-decoder export declares as dynamic the batch and the
    sequence-length axis of [input_ids], [attention_mask] and [logits], the
    batch axis of [encoder_hidden_states], and nothing else: the 577 tokens
    and the 768 features of the encoder states are fixed, and so is the
    last (vocabulary) dimension of the logits. *)
Theorem text_dynamic_axes :
  ∀ (g : nat → Q),
    let a := text_export_args (torch_ones [1; seq_len]%N torch_long)
               (torch_ones [1; seq_len]%N torch_long)
               (torch_randn g [1; 577; 768]%N) in
    (∀ name axis,
        is_dynamic a name axis = true ↔
        (name, axis) ∈ [("input_ids", 0); ("input_ids", 1);
                        ("attention_mask", 0); ("attention_mask", 1);
                        ("encoder_hidden_states", 0);
                        ("logits", 0); ("logits", 1)]) ∧
    declared_inputs a
    = [("input_ids", [dim_param "batch"; dim_param "seq_len"]);
       ("attention_mask", [dim_param "batch"; dim_param "seq_len"]);
       ("encoder_hidden_states",
        [dim_param "batch"; dim_value 577; dim_value 768])] ∧
    (∀ b l v, graph_shape a "logits" [b; l; v]
              = [dim_param "batch"; dim_param "seq_len"; dim_value v]).
Proof.
  intros g a. split; [| split; [reflexivity | intros; reflexivity]].
  intros name axis. unfold is_dynamic, axis_name.
  rewrite bool_decide_eq_true. subst a. cbn [dynamic_axes text_export_args].
  rewrite !elem_of_cons, elem_of_nil.
  case_key name "input_ids";
    [| case_key name "attention_mask";
       [| case_key name "encoder_hidden_states";
          [| case_key name "logits"; [| rewrite lookup_empty]]]];
    cbn [mbind option_bind];
    rewrite ?batch_only_dynamic, ?batch_seq_dynamic, ?is_Some_alt;
    naive_solver.
Qed.

(** ** Reasoning about runs *)

Section Rules.
Context {A B : Type}.
Implicit Types (Q : A → State → Prop) (E : Exn → State → Prop) (s : State).

Lemma wp_intro (P : State * Result A → Prop) (m : M A) s :
  wp m (λ a s', P (s', Ok a)) (λ e s', P (s', Raise e)) s → P (m s).
Proof. unfold wp. by destruct (m s) as [s' [a | e]]. Qed.

Lemma wp_ret (a : A) Q E s : Q a s → wp (mret a) Q E s.
Proof. done. Qed.

Lemma wp_bind (m : M A) (k : A → M B) (Q : B → State → Prop) E s :
  wp m (λ a, wp (k a) Q E) E s → wp (m ≫= k) Q E s.
Proof.
  unfold wp, mbind, M_bind. by destruct (m s) as [s' [a | e]].
Qed.

Lemma wp_call (c : Call) (op : FS → FS * Result A) Q E s :
  (∀ fs' r, op (fs s) = (fs', r) →
     match r with
     | Ok a => Q a (with_call s fs' c None)
     | Raise e => E e (with_call s fs' c (Some e))
     end) →
  wp (call c op) Q E s.
Proof.
  intros H. unfold wp, call. destruct (op (fs s)) as [fs' r] eqn:Hop.
  specialize (H fs' r eq_refl). by destruct r.
Qed.
End Rules.

Lemma wp_print (l : Line) Q E s : Q () (with_line s l) → wp (print l) Q E s.
Proof. done. Qed.

Lemma wp_randn (w : World) dims Q E s :
  Q (torch_randn (randn_samples w (rng s)) dims)
    (with_rng s (rng s + numel dims)%N) →
  wp (randn w dims) Q E s.
Proof. done. Qed.

Lemma wp_get_rng Q E s : Q (rng s) s → wp get_rng Q E s.
Proof. done. Qed.

Lemma wp_exists p Q E s : Q (Path_exists p (fs s)) s → wp (exists_ p) Q E s.
Proof. done. Qed.

(** The manifest loop leaves the file system alone; it records one [stat]
    per entry it reaches and prints one line per entry it has sized. *)
Lemma wp_report_loop (w : World) (entries : list Path) Q E s :
  (∀ stats lines, Forall is_stat stats →
     (clean stats → (∀ e, e ∈ entries → listed e lines) →
      Q () (after_loop s stats lines)) ∧
     (∀ pre c e, stats = pre ++ [(c, Some e)] → clean pre →
      E e (after_loop s stats lines))) →
  wp (report_loop w entries) Q E s.
Proof.
  revert s Q E. induction entries as [| e rest IH]; intros s Q E H.
  - destruct (H [] [] (Forall_nil_2 _)) as [Hok _].
    unfold after_loop in Hok. rewrite !app_nil_r in Hok.
    destruct s. apply Hok; [constructor | intros e He; inversion He].
  - cbn [report_loop]. apply wp_bind, wp_call. intros fs' r Hop.
    assert (fs' = fs s) as ->.
    { unfold Path_stat_size in Hop.
      destruct (node (fs s) e) as [[| d] |]; by inversion Hop. }
    destruct r as [st_size | err].
    + apply wp_bind, wp_print, IH. intros stats lines Hstats.
      destruct (H ((CallStat e, None) :: stats)
                  (Manifest (basename e) st_size :: lines)) as [Hok Herr].
      { constructor; [by exists e | done]. }
      unfold after_loop, with_line, with_call in *. cbn [fs rng stdout calls].
      rewrite <- !app_assoc. cbn [app]. split.
      * intros Hclean Hall. apply Hok; [by constructor |].
        intros e' [-> | He']%elem_of_cons.
        -- exists st_size. left.
        -- destruct (Hall e' He') as [sz Hsz]. exists sz. by right.
      * intros pre c err -> Hclean.
        apply (Herr ((CallStat e, None) :: pre) c err); [done |].
        by constructor.
    + destruct (H [(CallStat e, Some err)] []) as [_ Herr].
      { constructor; [by exists e | done]. }
      specialize (Herr [] (CallStat e) err eq_refl (Forall_nil_2 _)).
      unfold after_loop, with_call in *. cbn [fs rng stdout calls] in *.
      by rewrite app_nil_r in Herr.
Qed.

(** One step of symbolic execution of the script. *)
Ltac wp_simpl :=
  cbn [fs rng stdout calls with_call with_line with_rng after_loop initial]
    in *.

Ltac wp_step :=
  cbn beta iota;
  lazymatch goal with
  | |- wp (mbind _ _) _ _ _ => apply wp_bind
  | |- wp (mret _) _ _ _ => apply wp_ret
  | |- wp (call _ _) _ _ _ => apply wp_call; intros ? [? | ?] ?; wp_simpl
  | |- wp (print _) _ _ _ => apply wp_print; wp_simpl
  | |- wp (randn _ _) _ _ _ => apply wp_randn; wp_simpl
  | |- wp get_rng _ _ _ => apply wp_get_rng; wp_simpl
  | |- wp (exists_ _) _ _ _ => apply wp_exists; wp_simpl
  | |- wp (if ?b then _ else _) _ _ _ => destruct b eqn:?
  | |- wp (report_loop _ _) _ _ _ =>
      apply wp_report_loop; intros ? ? ?;
      split; [intros ? ? | intros ? ? ? ? ?]; wp_simpl
  end.

Ltac wp_run :=
  unfold run, main, load, export_vision, export_text, save_tokenizer, report,
    export;
  repeat wp_step.

(** ** The library calls of a run *)

Lemma stats_issued (w : World) stats :
  Forall is_stat stats → Forall (λ c, issued w c.1) stats.
Proof.
  intros H. eapply Forall_impl; [exact H |].
  intros [c o] [p Hp]. simpl in *. subst c. constructor.
Qed.

(** Every call a run records comes from one of the call sites. *)
Lemma run_issued (w : World) (fs0 : FS) (g : Rng) :
  Forall (λ c, issued w c.1) (calls (run w fs0 g).1).
Proof.
  unfold run. apply (wp_intro (λ r, Forall (λ c, issued w c.1) (calls r.1))).
  wp_run; cbn [fst]; wp_simpl;
    repeat (apply Forall_app_2; [| first [by apply stats_issued | idtac]]);
    repeat apply Forall_cons_2; try apply Forall_nil_2; cbn [fst];
    try (constructor; by eexists _, _, _).
Qed.

Lemma exports_issued (w : World) (fs0 : FS) (g : Rng) (a : ExportArgs) :
  a ∈ exports (calls (run w fs0 g).1) →
  ∃ fwd, issued w (CallOnnxExport fwd a).
Proof.
  unfold exports. rewrite list_elem_of_omap. intros ([c o] & Hin & Hc).
  pose proof (run_issued w fs0 g) as Hall.
  rewrite Forall_forall in Hall. specialize (Hall _ Hin). simpl in *.
  destruct c; try discriminate. injection Hc as ->. eauto.
Qed.

Example demo_run_exports_twice :
  length (exports (calls (run Demo.world Demo.disk 0%N).1)) = 2.
Proof. vm_compute. reflexivity. Qed.

(** ** Synthetic inputs and export settings *)

(** C1. Whatever the world, every export a run performs is either the
    vision export, traced with one image tensor of shape (1, 3, 384, 384),
    or the text-decoder export, traced with token ids of shape (1, 10), an
    attention mask of the same shape and encoder states of shape
    (1, 577, 768). *)
Theorem synthetic_input_shapes :
  ∀ (w : World) (fs0 : FS) (g : Rng) (a : ExportArgs),
    a ∈ exports (calls (run w fs0 g).1) →
    (f a = out "blip_vision_encoder.onnx" ∧
     zip (input_names a) (shape <$> args a)
     = [("pixel_values", [1; 3; 384; 384]%N)]) ∨
    (f a = out "blip_text_decoder.onnx" ∧
     zip (input_names a) (shape <$> args a)
     = [("input_ids", [1; 10]%N);
        ("attention_mask", [1; 10]%N);
        ("encoder_hidden_states", [1; 577; 768]%N)]).
Proof.
  intros w fs0 g a [fwd Hiss]%exports_issued.
  inversion Hiss; subst; [left | right]; split; reflexivity.
Qed.

Lemma synthetic_input_shapes_witness :
  ∃ a, exports (calls (run Demo.world Demo.disk 0%N).1) !! 1 = Some a ∧
       shape <$> args a = [[1; 10]; [1; 10]; [1; 577; 768]]%N.
Proof.
  eexists. split; [vm_compute; reflexivity |].
  match goal with
  | |- shape <$> args ?a = _ =>
      destruct (synthetic_input_shapes Demo.world Demo.disk 0%N a)
        as [[Hf _] | [_ Hz]]
  end.
  - apply list_elem_of_lookup. exists 1. vm_compute. reflexivity.
  - vm_compute in Hf. discriminate Hf.
  - reflexivity.
Defined.

(** C9. Whatever the world, every export a run performs asks for opset
    17; the two argument records of the script agree on it. *)
Theorem exports_use_opset_17 :
  (∀ (w : World) (fs0 : FS) (g : Rng),
      Forall (λ a, opset_version a = 17) (exports (calls (run w fs0 g).1))) ∧
  (∀ image ids mask states,
      opset_version (vision_export_args image) = 17 ∧
      opset_version (text_export_args ids mask states) = 17).
Proof.
  split; [| by intros].
  intros w fs0 g. apply Forall_forall. intros a [fwd Hiss]%exports_issued.
  inversion Hiss; subst; reflexivity.
Qed.

(** ** Inference mode *)

(** C8. [model.eval()] leaves both sub-modules in inference mode, and
    every module a run hands to the exporter is a wrapper around the model
    after [eval()].  So, for models whose stochastic layers are idle in
    inference mode, what is traced is one function of the inputs: it gives
    the same result whatever the state of the random generator. *)
Theorem eval_before_tracing :
  ∀ (w : World) (fs0 : FS) (g : Rng),
    (∀ model, loaded w model → eval_deterministic model) →
    (∀ model, training (vision_model (model_eval model)) = false ∧
              training (text_decoder (model_eval model)) = false) ∧
    Forall (λ fwd, ∀ g1 g2 xs, fwd g1 xs = fwd g2 xs)
      (traced (calls (run w fs0 g).1)).
Proof.
  intros w fs0 g Hdet. split; [by intros |].
  apply Forall_forall. intros fwd.
  unfold traced. rewrite list_elem_of_omap. intros ([c o] & Hin & Hc).
  pose proof (run_issued w fs0 g) as Hall.
  rewrite Forall_forall in Hall. specialize (Hall _ Hin). simpl in *.
  destruct c; try discriminate. injection Hc as ->.
  inversion Hall as [| | | model g' Hl | model g' Hl | | | | |]; subst;
    destruct (Hdet model Hl) as [Hv Ht]; intros g1 g2 xs.
  - unfold vision_forward. destruct xs as [| x [| ? ?]]; try reflexivity.
    unfold VisionEncoderWrapper.forward, module_call. simpl.
    by rewrite (Hv g1 g2).
  - unfold text_forward.
    destruct xs as [| x1 [| x2 [| x3 [| ? ?]]]]; try reflexivity.
    unfold TextDecoderWrapper.forward, module_call. simpl.
    by rewrite (Ht g1 g2).
Qed.

Lemma demo_eval_deterministic : eval_deterministic Demo.model.
Proof. split; intros; reflexivity. Qed.

Lemma eval_before_tracing_witness :
  length (traced (calls (run Demo.world Demo.disk 0%N).1)) = 2 ∧
  Forall (λ fwd, ∀ g1 g2 xs, fwd g1 xs = fwd g2 xs)
    (traced (calls (run Demo.world Demo.disk 0%N).1)).
Proof.
  split; [vm_compute; reflexivity |].
  apply (eval_before_tracing Demo.world Demo.disk 0%N).
  intros model (id & fsa & fsb & Hload).
  injection Hload as _ <-. apply demo_eval_deterministic.
Defined.

(** Without [eval()] the demo model would be traced in training mode,
    where its output follows the generator. *)
Example demo_training_mode_is_random :
  let x := torch_ones [1; 3; 384; 384]%N torch_float32 in
  VisionEncoderWrapper.forward (VisionEncoderWrapper.init Demo.model) 1%N x
  ≠ VisionEncoderWrapper.forward (VisionEncoderWrapper.init Demo.model) 2%N x.
Proof.
  intros x Heq. vm_compute in Heq.
  injection Heq as Heq.
  apply (f_equal (λ h, h 0)) in Heq. discriminate Heq.
Qed.

(** ** The tokenizer artifact writer *)

Lemma Path_exists_false (p : Path) (fs0 : FS) :
  Path_exists p fs0 = false ↔ node fs0 p = None.
Proof.
  unfold Path_exists. rewrite bool_decide_eq_false, <- eq_None_not_Some.
  reflexivity.
Qed.

Lemma Path_exists_true (p : Path) (fs0 : FS) :
  Path_exists p fs0 = true ↔ is_Some (node fs0 p).
Proof. unfold Path_exists. by rewrite bool_decide_eq_true. Qed.

(** [shutil.copy] onto a path that does not exist yet. *)
Lemma shutil_copy_fresh (src dst : Path) (fs0 : FS) :
  node fs0 dst = None →
  shutil_copy src dst fs0 =
    match node fs0 src with
    | None => (fs0, Raise FileNotFoundError)
    | Some Dir => (fs0, Raise IsADirectoryError)
    | Some (File data) =>
        match node fs0 (parent dst) with
        | Some Dir => (<[dst := File data]> fs0, Ok dst)
        | Some (File _) => (fs0, Raise NotADirectoryError)
        | None => (fs0, Raise FileNotFoundError)
        end
    end.
Proof.
  intros Hdst. unfold shutil_copy. rewrite Hdst.
  destruct (node fs0 src) as [[| data] |] eqn:Hsrc; try reflexivity.
  destruct (decide (src = dst)) as [-> | _]; [congruence | by rewrite Hdst].
Qed.

Lemma shutil_copy_fresh_Ok (src dst p : Path) (fs0 fs1 : FS) :
  node fs0 dst = None →
  shutil_copy src dst fs0 = (fs1, Ok p) →
  ∃ data, node fs0 src = Some (File data) ∧
          node fs0 (parent dst) = Some Dir ∧
          fs1 = <[dst := File data]> fs0.
Proof.
  intros Hdst. rewrite shutil_copy_fresh by done.
  destruct (node fs0 src) as [[| data] |]; try discriminate.
  destruct (node fs0 (parent dst)) as [[| ?] |]; try discriminate.
  intros [= <- <-]. eauto.
Qed.

Lemma shutil_copy_fresh_Raise (src dst : Path) (fs0 fs1 : FS) (e : Exn) :
  node fs0 dst = None →
  shutil_copy src dst fs0 = (fs1, Raise e) →
  fs1 = fs0 ∧
  ∀ data, node fs0 src = Some (File data) →
          node fs0 (parent dst) ≠ Some Dir.
Proof.
  intros Hdst. rewrite shutil_copy_fresh by done.
  destruct (node fs0 src) as [[| data] |]; try (intros [= <- <-]; by split).
  destruct (node fs0 (parent dst)) as [[| ?] |];
    try discriminate; intros [= <- <-]; by split.
Qed.

Lemma Path_new_inv (o : option Path) (fs0 fs1 : FS) (r : Result Path) :
  Path_new o fs0 = (fs1, r) →
  fs1 = fs0 ∧
  match r with
  | Ok p => o = Some p
  | Raise _ => o = None
  end.
Proof. destruct o; intros [= <- <-]; by split. Qed.

(** C6. After the tokenizer has been saved: if the step returns, the
    vocabulary file exists in the output directory under its name.  If
    saving left no such file, the step copies the file the tokenizer was
    loaded from to that name; and if the tokenizer names no source file, or
    the file it names does not exist, the step raises and the output
    directory is left without a vocabulary file. *)
Theorem vocab_fallback_copy :
  ∀ (w : World) (processor : BlipProcessor) (s : State),
    let vocab := out "vocab.txt" in
    let source := vocab_file (tokenizer processor) in
    let saved := save_pretrained w (tokenizer processor) OUTPUT_DIR (fs s) in
    let final := save_tokenizer w processor s in
    (final.2 = Ok () → is_Some (fs final.1 !! vocab)) ∧
    (saved.2 = Ok () → saved.1 !! vocab = None →
       (∀ src data,
           source = Some src →
           node saved.1 src = Some (File data) →
           saved.1 !! OUTPUT_DIR = Some Dir →
           final.2 = Ok () ∧
           fs final.1 = <[vocab := File data]> saved.1) ∧
       (source = None ∨ (∃ src, source = Some src ∧ node saved.1 src = None) →
           (∃ e, final.2 = Raise e) ∧ fs final.1 !! vocab = None)).
Proof.
  intros w processor s vocab source saved final. subst final.
  apply (wp_intro (λ final,
    (final.2 = Ok () → is_Some (fs final.1 !! vocab)) ∧
    (saved.2 = Ok () → saved.1 !! vocab = None →
       (∀ src data,
           source = Some src →
           node saved.1 src = Some (File data) →
           saved.1 !! OUTPUT_DIR = Some Dir →
           final.2 = Ok () ∧
           fs final.1 = <[vocab := File data]> saved.1) ∧
       (source = None ∨ (∃ src, source = Some src ∧ node saved.1 src = None) →
           (∃ e, final.2 = Raise e) ∧ fs final.1 !! vocab = None)))).
  unfold save_tokenizer. repeat wp_step; cbn [fst snd]; wp_simpl;
    match goal with
    | H : save_pretrained _ _ _ _ = _ |- _ => subst saved; rewrite H
    end; cbn [fst snd]; (split; [try discriminate | intros Hs Hv]);
    try discriminate Hs;
    repeat match goal with
    | H : Path_exists _ _ = true |- _ => apply Path_exists_true in H
    | H : Path_exists _ _ = false |- _ => apply Path_exists_false in H
    | H : Path_new _ _ = _ |- _ => apply Path_new_inv in H as [-> H]
    end;
    subst source vocab.
  - (* the file was saved *) done.
  - (* ... so there is nothing to copy *)
    match goal with H : is_Some _ |- _ => destruct H as [n Hn] end.
    change (fs' !! out "vocab.txt" = Some n) in Hn. congruence.
  - (* copied *)
    match goal with H : shutil_copy _ _ _ = _ |- _ =>
      apply shutil_copy_fresh_Ok in H as (data & _ & _ & ->); [| done] end.
    intros _. by rewrite lookup_insert_eq.
  - (* copied, and it is the file the tokenizer names *)
    match goal with H : shutil_copy _ _ _ = _ |- _ =>
      apply shutil_copy_fresh_Ok in H as (data & Hsrc & _ & ->); [| done] end.
    split.
    + intros src data' Hsome Hdata _. split; [done |].
      assert (src = a0) as -> by congruence.
      assert (data' = data) as -> by congruence. reflexivity.
    + intros [Hnone | (src & Hsome & Hnone)]; [congruence |].
      assert (src = a0) as -> by congruence. congruence.
  - (* the copy raised *)
    match goal with H : shutil_copy _ _ _ = _ |- _ =>
      apply shutil_copy_fresh_Raise in H as [-> Hno]; [| done] end.
    split.
    + intros src data Hsome Hdata Hdir.
      assert (src = a0) as -> by congruence.
      destruct (Hno data Hdata). exact Hdir.
    + intros _. split; [eauto | exact Hv].
  - (* the tokenizer names no file *)
    split.
    + intros src data Hsome. congruence.
    + intros _. split; [eauto | exact Hv].
Qed.

Lemma vocab_fallback_copy_witness :
  let start := initial Demo.disk 0%N in
  let bare := {| tokenizer := {| vocab_file := None |} |} in
  fs (save_tokenizer Demo.world Demo.processor start).1 !! out "vocab.txt"
  = Some (File "[PAD]") ∧
  (∃ e, (save_tokenizer Demo.world bare start).2 = Raise e).
Proof.
  intros start bare.
  destruct (vocab_fallback_copy Demo.world Demo.processor start)
    as [_ Hcopy].
  destruct (vocab_fallback_copy Demo.world bare start) as [_ Hfail].
  split.
  - destruct Hcopy as [Hcopy _];
      [vm_compute; reflexivity | vm_compute; reflexivity |].
    destruct (Hcopy Demo.cached_vocab "[PAD]") as [_ ->];
      [reflexivity | vm_compute; reflexivity | vm_compute; reflexivity |].
    apply lookup_insert_eq.
  - destruct Hfail as [_ Hfail];
      [vm_compute; reflexivity | vm_compute; reflexivity |].
    apply Hfail. by left.
Defined.

(** ** Order of the steps and failure *)

Lemma clean_no_failure pre c e post : ¬ clean (pre ++ (c, Some e) :: post).
Proof.
  unfold clean. rewrite Forall_app, Forall_cons. naive_solver.
Qed.

Lemma halted_failure_last l r pre c e post :
  halted l r → l = pre ++ (c, Some e) :: post → post = [] ∧ r = Raise e.
Proof.
  intros Hh ->. destruct r as [[] | e'].
  - by apply clean_no_failure in Hh.
  - destruct Hh as (pre' & c' & Heq & Hclean).
    destruct post as [| x post _] using rev_ind.
    + apply app_inj_tail in Heq as [_ [= _ ->]]. done.
    + rewrite app_comm_cons, app_assoc in Heq.
      apply app_inj_tail in Heq as [<- _].
      by apply clean_no_failure in Hclean.
Qed.

Lemma stages_stats stats :
  Forall is_stat stats → Forall (λ k : nat, k = 5) (stages stats).
Proof.
  intros H. unfold stages. rewrite Forall_fmap.
  eapply Forall_impl; [exact H |].
  intros [c o] [p Hp]. simpl in *. by subst c.
Qed.

(** The explicit part of a record is in order and ends at the manifest
    step; the [stat] calls of the loop follow. *)
Lemma stages_with_stats (l stats : list (Call * option Exn)) :
  StronglySorted le (stages l) →
  Forall (λ k : nat, (k ≤ 5)%nat) (stages l) →
  Forall is_stat stats →
  StronglySorted le (stages (l ++ stats)).
Proof.
  intros Hl Hle Hstats%stages_stats. unfold stages in *.
  rewrite fmap_app. apply StronglySorted_app. split_and!; [| done |].
  - intros x1 x2 H1 H2. rewrite Forall_forall in Hle, Hstats.
    rewrite (Hstats _ H2). auto.
  - induction Hstats as [| k ks -> Hks IH]; constructor; [done |].
    eapply Forall_impl; [exact Hks |]. by intros ? ->.
Qed.

Ltac explicit_sorted :=
  repeat first
    [ apply SSorted_nil | apply SSorted_cons
    | apply Forall_cons_2 | apply Forall_nil_2 | lia ].

Ltac explicit_clean :=
  unfold clean; repeat apply Forall_app_2; try assumption;
  repeat first [apply Forall_cons_2 | apply Forall_nil_2]; reflexivity.

Lemma stage_covered (k : nat) (l : list nat) :
  (k ≤ 5)%nat → [0; 1; 2; 3; 4; 5] ⊆ l → k ∈ l.
Proof.
  intros Hk Hl. apply Hl.
  do 6 (destruct k as [| k]; [set_solver |]). lia.
Qed.

Lemma run_in_order (w : World) (fs0 : FS) (g : Rng) :
  in_order (calls (run w fs0 g).1) (run w fs0 g).2.
Proof.
  unfold run. apply (wp_intro (λ r, in_order (calls r.1) r.2)).
  wp_run; cbn [fst snd]; wp_simpl; (split; [| split]);
    lazymatch goal with
    | |- StronglySorted _ _ =>
        (* in order *)
        first
          [ apply stages_with_stats;
            [ vm_compute; explicit_sorted
            | vm_compute; explicit_sorted
            | assumption ]
          | vm_compute; explicit_sorted ]
    | |- halted _ _ =>
        (* stopped at the first failure *)
        subst; rewrite ?app_assoc; unfold halted;
        first [ explicit_clean
              | eexists _, _; split; [reflexivity | explicit_clean] ]
    | |- Raise _ = Ok _ → _ => discriminate
    | |- _ =>
        (* a run that returns went through every step *)
        intros _ k Hk; apply (stage_covered k _ Hk);
        unfold stages; rewrite fmap_app; intros j Hj;
        apply elem_of_app; left; revert j Hj; vm_compute; set_solver
    end.
Qed.

(** C7. In every run the library calls follow the order of the steps:
    configuration, model loading, vision export, text-decoder export,
    tokenizer files, report.  A call that raises is the last call of the
    run, and what it raised is what the run raises; a run raises only
    what one of its calls raised; and a run that returns has gone through
    each of the five steps. *)
Theorem steps_in_order_halt_on_failure :
  ∀ (w : World) (fs0 : FS) (g : Rng),
    let trace := calls (run w fs0 g).1 in
    let result := (run w fs0 g).2 in
    StronglySorted le (stages trace) ∧
    (∀ pre c e post,
        trace = pre ++ (c, Some e) :: post → post = [] ∧ result = Raise e) ∧
    (∀ e, result = Raise e → ∃ pre c, trace = pre ++ [(c, Some e)]) ∧
    (result = Ok () → ∀ k : nat, (1 ≤ k ≤ 5)%nat → k ∈ stages trace).
Proof.
  intros w fs0 g trace result.
  destruct (run_in_order w fs0 g) as (Hsorted & Hhalted & Hall).
  fold trace result in Hsorted, Hhalted, Hall. split_and!.
  - exact Hsorted.
  - intros pre c e post. by apply halted_failure_last.
  - intros e He. rewrite He in Hhalted.
    destruct Hhalted as (pre & c & Heq & _). eauto.
  - intros Hok k [_ Hk]. auto.
Qed.

Lemma steps_in_order_halt_on_failure_witness :
  (run Demo.offline ∅ 0%N).2 = Raise (LibraryError "unreachable") ∧
  stages (calls (run Demo.offline ∅ 0%N).1) = [0; 1] ∧
  (run Demo.world Demo.disk 0%N).2 = Ok () ∧
  5 ∈ stages (calls (run Demo.world Demo.disk 0%N).1).
Proof.
  destruct (steps_in_order_halt_on_failure Demo.offline ∅ 0%N)
    as (_ & Hlast & _ & _).
  destruct (steps_in_order_halt_on_failure Demo.world Demo.disk 0%N)
    as (_ & _ & _ & Hall).
  split_and!.
  - apply (Hlast [(CallMkdir OUTPUT_DIR, None)]
             (CallProcessorFromPretrained MODEL_ID)
             (LibraryError "unreachable") []).
    vm_compute. reflexivity.
  - vm_compute. reflexivity.
  - vm_compute. reflexivity.
  - apply Hall; [vm_compute; reflexivity | lia].
Defined.

(** ** The output directory *)

#[global] Instance keeps_refl : Reflexive keeps.
Proof. intros fs0 p n Hp. eauto. Qed.

#[global] Instance keeps_trans : Transitive keeps.
Proof.
  intros fs0 fs1 fs2 H01 H12 p n Hp.
  destruct (H01 p n Hp) as (n1 & Hp1 & Hd1).
  destruct (H12 p n1 Hp1) as (n2 & Hp2 & Hd2). eauto.
Qed.

Lemma keeps_insert_fresh (fs0 : FS) (p : Path) (n : Node) :
  fs0 !! p = None → keeps fs0 (<[p := n]> fs0).
Proof.
  intros Hnone q m Hq. exists m. split; [| done].
  rewrite lookup_insert_ne; [done | congruence].
Qed.

Lemma node_None (fs0 : FS) (p : Path) : node fs0 p = None → fs0 !! p = None.
Proof. by destruct p. Qed.

Lemma oracle_keeps {A} (op : FS → FS * Result A) fs0 fs1 r :
  (∀ fs0, keeps fs0 (op fs0).1) → op fs0 = (fs1, r) → keeps fs0 fs1.
Proof. intros H Hop. specialize (H fs0). by rewrite Hop in H. Qed.

Lemma Path_mkdir_keeps (p : Path) (fs0 fs1 : FS) r :
  Path_mkdir p fs0 = (fs1, r) → keeps fs0 fs1.
Proof.
  unfold Path_mkdir.
  destruct (node fs0 p) as [[| ?] |] eqn:Hp; try (by intros [= <- <-]).
  destruct (node fs0 (parent p)) as [[| ?] |]; intros [= <- <-]; try done.
  by apply keeps_insert_fresh, node_None.
Qed.

Lemma Path_mkdir_output (fs0 fs1 : FS) r :
  Path_mkdir OUTPUT_DIR fs0 = (fs1, r) →
  match r with
  | Ok _ => fs1 !! OUTPUT_DIR = Some Dir
  | Raise _ => ∃ data, fs0 !! OUTPUT_DIR = Some (File data)
  end.
Proof.
  unfold Path_mkdir. cbn [node parent removelast OUTPUT_DIR].
  change ["models"] with OUTPUT_DIR.
  destruct (fs0 !! OUTPUT_DIR) as [[| data] |] eqn:Hp; intros [= <- <-].
  - done.
  - eauto.
  - apply lookup_insert_eq.
Qed.

Lemma shutil_copy_fresh_keeps (src dst : Path) (fs0 fs1 : FS) r :
  node fs0 dst = None → shutil_copy src dst fs0 = (fs1, r) → keeps fs0 fs1.
Proof.
  intros Hdst. rewrite shutil_copy_fresh by done.
  destruct (node fs0 src) as [[| data] |]; try (by intros [= <- <-]).
  destruct (node fs0 (parent dst)) as [[| ?] |]; intros [= <- <-]; try done.
  by apply keeps_insert_fresh, node_None.
Qed.

Lemma Path_iterdir_inv (p : Path) (fs0 fs1 : FS) r :
  Path_iterdir p fs0 = (fs1, r) →
  fs1 = fs0 ∧
  match r with
  | Ok entries => entries = children p fs0
  | Raise _ => True
  end.
Proof.
  unfold Path_iterdir.
  destruct (node fs0 p) as [[| ?] |]; intros [= <- <-]; by split.
Qed.

Lemma elem_of_children (p q : Path) (fs0 : FS) :
  q ∈ children p fs0 ↔ is_child p q ∧ is_Some (fs0 !! q).
Proof.
  unfold children. rewrite list_elem_of_filter, list_elem_of_fmap.
  split.
  - intros [Hc ([q' n] & Heq & Hin)]. simpl in Heq. subst q'.
    apply elem_of_map_to_list in Hin. eauto.
  - intros [Hc [n Hn]]. split; [done |].
    exists (q, n). split; [done |]. by apply elem_of_map_to_list.
Qed.

Lemma elem_of_sorted (q : Path) (l : list Path) : q ∈ sorted l ↔ q ∈ l.
Proof. unfold sorted. by rewrite merge_sort_Permutation. Qed.

Lemma out_is_child (name : string) : is_child OUTPUT_DIR (out name).
Proof. by split. Qed.

Lemma listed_app_l e l1 l2 : listed e l1 → listed e (l1 ++ l2).
Proof. intros [sz H]. exists sz. apply elem_of_app. by left. Qed.

Lemma listed_app_r e l1 l2 : listed e l2 → listed e (l1 ++ l2).
Proof. intros [sz H]. exists sz. apply elem_of_app. by right. Qed.

(** Turn what is known about each call into what it did to the files. *)
Ltac fs_facts Hw :=
  destruct Hw as (Hproc & Hmodel & Hexport & Hsave);
  repeat match goal with
  | H : Path_exists _ _ = false |- _ => apply Path_exists_false in H
  | H : Path_exists _ _ = true |- _ => apply Path_exists_true in H
  | H : Path_new _ _ = _ |- _ => apply Path_new_inv in H as [-> _]
  | H : Path_iterdir _ _ = _ |- _ => apply Path_iterdir_inv in H as [-> H]
  | H : Path_mkdir OUTPUT_DIR _ = _ |- _ =>
      pose proof (Path_mkdir_keeps _ _ _ _ H); apply Path_mkdir_output in H
  | H : shutil_copy _ _ _ = _ |- _ =>
      apply shutil_copy_fresh_keeps in H; [| assumption]
  | H : BlipProcessor_from_pretrained _ _ _ = _ |- _ =>
      apply (oracle_keeps _ _ _ _ (Hproc _)) in H
  | H : BlipForConditionalGeneration_from_pretrained _ _ _ = _ |- _ =>
      apply (oracle_keeps _ _ _ _ (Hmodel _)) in H
  | H : torch_onnx_export _ _ _ _ _ = _ |- _ =>
      apply (oracle_keeps _ _ _ _ (Hexport _ _ _)) in H
  | H : save_pretrained _ _ _ _ = _ |- _ =>
      apply (oracle_keeps _ _ _ _ (Hsave _ _)) in H
  end.

Ltac keeps_chain :=
  repeat (eapply keeps_trans; [eassumption |]); apply keeps_refl.

Lemma run_kept_and_listed (w : World) (fs0 : FS) (g : Rng) :
  never_deletes w → kept_and_listed fs0 (run w fs0 g).
Proof.
  intros Hw. unfold run. apply (wp_intro (kept_and_listed fs0)).
  wp_run; unfold kept_and_listed; cbn [fst snd]; wp_simpl; fs_facts Hw;
    split_and!.
  all: lazymatch goal with
    | |- ∃ _, _ !! 0 = _ =>
        (* the directory is made first *)
        eexists; rewrite <- ?app_assoc; reflexivity
    | |- keeps _ _ => keeps_chain
    | |- _ !! 0 = Some _ → _ =>
        (* the directory was made, and it stays *)
        rewrite <- ?app_assoc; intros Hmade;
        lazymatch goal with
        | H : ?m !! OUTPUT_DIR = Some Dir |- ?m' !! _ = _ =>
            let Hk := fresh in
            assert (keeps m m') as Hk by keeps_chain;
            destruct (Hk _ _ H) as (n' & -> & ->); reflexivity
        | |- _ => discriminate Hmade
        end
    | |- (∀ _, _ ≠ _) → _ =>
        (* once made, the directory stays *)
        intros Hnofile;
        lazymatch goal with
        | H : ∃ _, _ !! OUTPUT_DIR = _ |- _ =>
            destruct H as [data H]; by destruct (Hnofile data)
        | H : ?m !! OUTPUT_DIR = Some Dir |- ?m' !! _ = _ =>
            let Hk := fresh in
            assert (keeps m m') as Hk by keeps_chain;
            destruct (Hk _ _ H) as (n' & -> & ->); reflexivity
        end
    | |- Raise _ = Ok _ → _ => discriminate
    | |- _ =>
        (* the manifest names every entry *)
        intros _ name Hname;
        apply listed_app_l, listed_app_r;
        match goal with H : ∀ _, _ ∈ sorted _ → _ |- _ => apply H end;
        subst; apply elem_of_sorted, elem_of_children;
        split; [apply out_is_child | exact Hname]
    end.
Qed.

(** C10. The first thing a run does is make the output directory.  With
    libraries that delete nothing: once made, the directory exists when
    the run ends, however it ends (and it is made unless a regular file
    already has its name); every entry the directory had before the run
    is still there after it; and when the run returns, the manifest has a
    line for each of them. *)
Theorem output_dir_created_and_kept :
  ∀ (w : World) (fs0 : FS) (g : Rng),
    never_deletes w →
    let final := run w fs0 g in
    (∃ o, calls final.1 !! 0 = Some (CallMkdir OUTPUT_DIR, o)) ∧
    (calls final.1 !! 0 = Some (CallMkdir OUTPUT_DIR, None) →
     fs final.1 !! OUTPUT_DIR = Some Dir) ∧
    ((∀ data, fs0 !! OUTPUT_DIR ≠ Some (File data)) →
     fs final.1 !! OUTPUT_DIR = Some Dir) ∧
    (∀ name, is_Some (fs0 !! out name) →
             is_Some (fs final.1 !! out name)) ∧
    (final.2 = Ok () →
     ∀ name, is_Some (fs0 !! out name) →
             listed (out name) (stdout final.1)).
Proof.
  intros w fs0 g Hw final.
  destruct (run_kept_and_listed w fs0 g Hw)
    as (Hfirst & Hmade & Hdir & Hkeep & Hlist).
  fold final in Hfirst, Hmade, Hdir, Hkeep, Hlist.
  assert (∀ name, is_Some (fs0 !! out name) →
                  is_Some (fs final.1 !! out name)) as Hstay.
  { intros name [n Hn]. destruct (Hkeep _ _ Hn) as (n' & Hn' & _). eauto. }
  split_and!; auto.
Qed.

Lemma write_file_keeps (p : Path) (data : string) (fs0 : FS) :
  keeps fs0 (Demo.write_file p data fs0).1.
Proof.
  unfold Demo.write_file.
  destruct (fs0 !! p) as [[| old] |] eqn:Hp; cbn [fst]; [done | |].
  - intros q n Hq. destruct (decide (p = q)) as [<- | Hne].
    + rewrite lookup_insert_eq. eexists. split; [done | congruence].
    + rewrite lookup_insert_ne by done. eauto.
  - by apply keeps_insert_fresh.
Qed.

Lemma exporter_keeps (fwd : Rng → list Tensor → Result Tensor)
    (a : ExportArgs) (g : Rng) (fs0 : FS) :
  keeps fs0 (Demo.exporter fwd a g fs0).1.
Proof.
  unfold Demo.exporter. destruct (fwd g (args a)); [| done].
  apply write_file_keeps.
Qed.

Lemma demo_world_never_deletes : never_deletes Demo.world.
Proof.
  split_and!; intros; cbn [Demo.world BlipProcessor_from_pretrained
    BlipForConditionalGeneration_from_pretrained torch_onnx_export
    save_pretrained fst];
    first [done | apply exporter_keeps | apply write_file_keeps].
Qed.

Lemma demo_offline_never_deletes : never_deletes Demo.offline.
Proof.
  split_and!; intros; cbn [Demo.offline BlipProcessor_from_pretrained
    BlipForConditionalGeneration_from_pretrained torch_onnx_export
    save_pretrained fst];
    first [done | apply exporter_keeps].
Qed.

Lemma output_dir_created_and_kept_witness :
  (run Demo.offline ∅ 0%N).2 = Raise (LibraryError "unreachable") ∧
  fs (run Demo.offline ∅ 0%N).1 !! OUTPUT_DIR = Some Dir ∧
  listed (out "old.bin") (stdout (run Demo.world Demo.disk 0%N).1).
Proof.
  destruct (output_dir_created_and_kept Demo.offline ∅ 0%N
              demo_offline_never_deletes) as (_ & Hmade & _ & _ & _).
  destruct (output_dir_created_and_kept Demo.world Demo.disk 0%N
              demo_world_never_deletes) as (_ & _ & _ & _ & Hlisted).
  split_and!.
  - vm_compute. reflexivity.
  - apply Hmade. vm_compute. reflexivity.
  - apply Hlisted; [vm_compute; reflexivity |].
    exists (File "stale"). vm_compute. reflexivity.
Defined.

(** * Further properties of the script *)

(** ** The manifest loop, exactly *)

Lemma report_loop_exact (w : World) (entries : list Path) (s : State) :
  (∀ e, e ∈ entries → is_Some (node (fs s) e)) →
  report_loop w entries s
  = (after_loop s (stat_ok <$> entries)
       (manifest_line w (fs s) <$> entries), Ok ()).
Proof.
  revert s. induction entries as [| e rest IH]; intros s Hall.
  - unfold after_loop. cbn. rewrite !app_nil_r. by destruct s.
  - cbn [report_loop]. unfold mbind, M_bind, call, print.
    assert (Path_stat_size (dir_st_size w) e (fs s)
            = (fs s, Ok (st_size_of w (fs s) e))) as ->.
    { unfold Path_stat_size, st_size_of.
      destruct (Hall e) as [n Hn]; [left |]. rewrite Hn. by destruct n. }
    cbn [outcome]. rewrite IH.
    + unfold after_loop, manifest_line, stat_ok.
      cbn [fs rng stdout calls fmap list_fmap].
      by rewrite <- !app_assoc.
    + intros e' He'. cbn [fs]. apply Hall. by right.
Qed.

Lemma wp_report_loop_exact (w : World) (entries : list Path) Q E s :
  (∀ e, e ∈ entries → is_Some (node (fs s) e)) →
  Q () (after_loop s (stat_ok <$> entries)
          (manifest_line w (fs s) <$> entries)) →
  wp (report_loop w entries) Q E s.
Proof. intros Hall HQ. unfold wp. by rewrite report_loop_exact. Qed.

Lemma is_child_out (e : Path) : is_child OUTPUT_DIR e → e = out (basename e).
Proof.
  intros [Hne Hpar]. unfold parent, basename, out in *.
  destruct (exists_last Hne) as (init & name & ->).
  rewrite removelast_last in Hpar. subst init.
  by rewrite last_last.
Qed.

Lemma listing_spec (fs0 : FS) (e : Path) :
  e ∈ listing fs0 ↔ ∃ name, e = out name ∧ is_Some (fs0 !! out name).
Proof.
  unfold listing. rewrite elem_of_sorted, elem_of_children. split.
  - intros [Hc Hs]. exists (basename e). by rewrite <- is_child_out.
  - intros (name & -> & Hs). split; [apply out_is_child | done].
Qed.

Lemma listing_exists (fs0 : FS) (e : Path) :
  e ∈ listing fs0 → is_Some (node fs0 e).
Proof. intros (name & -> & Hs)%listing_spec. exact Hs. Qed.

Lemma Path_iterdir_cases (p : Path) (fs0 fs1 : FS) r :
  Path_iterdir p fs0 = (fs1, r) →
  fs1 = fs0 ∧
  match r with
  | Ok entries => node fs0 p = Some Dir ∧ entries = children p fs0
  | Raise _ => node fs0 p ≠ Some Dir
  end.
Proof.
  unfold Path_iterdir.
  destruct (node fs0 p) as [[| ?] |]; intros [= <- <-]; by split.
Qed.

(** Symbolic execution with the manifest loop run to its end. *)
Ltac wp_step_exact :=
  cbn beta iota;
  lazymatch goal with
  | |- wp (mbind _ _) _ _ _ => apply wp_bind
  | |- wp (mret _) _ _ _ => apply wp_ret
  | |- wp (call (CallIterdir _) _) _ _ _ =>
      let H := fresh "Hiter" in
      let Hd := fresh "Hdir" in
      apply wp_call; intros ? [? | ?] H;
      apply Path_iterdir_cases in H as [-> H];
      [destruct H as [Hd ->] |]; wp_simpl
  | |- wp (call _ _) _ _ _ => apply wp_call; intros ? [? | ?] ?; wp_simpl
  | |- wp (print _) _ _ _ => apply wp_print; wp_simpl
  | |- wp (randn _ _) _ _ _ => apply wp_randn; wp_simpl
  | |- wp get_rng _ _ _ => apply wp_get_rng; wp_simpl
  | |- wp (exists_ _) _ _ _ => apply wp_exists; wp_simpl
  | |- wp (if ?b then _ else _) _ _ _ => destruct b eqn:?
  | |- wp (report_loop _ _) _ _ _ =>
      apply wp_report_loop_exact;
      [intros ? ?; by apply listing_exists | wp_simpl]
  end.

Ltac wp_run_exact :=
  unfold run, main, load, export_vision, export_text, save_tokenizer, report,
    export;
  repeat wp_step_exact.

(** ** What a run prints *)

Lemma texts_app (l1 l2 : list Line) : texts (l1 ++ l2) = texts l1 ++ texts l2.
Proof. apply omap_app. Qed.

Lemma texts_manifest_lines (w : World) (fs0 : FS) (es : list Path) :
  texts (manifest_line w fs0 <$> es) = [].
Proof. induction es as [| e es IH]; [done | exact IH]. Qed.



(** X1. The text lines a run prints are an initial part of the nine
    progress lines of the script, in their order, and all nine are printed
    exactly when the run returns. *)
Theorem progress_lines_in_order :
  ∀ (w : World) (fs0 : FS) (g : Rng),
    let final := run w fs0 g in
    texts (stdout final.1) `prefix_of` progress_lines ∧
    (final.2 = Ok () ↔ texts (stdout final.1) = progress_lines).
Proof.
  intros w fs0 g final. subst final. unfold run.
  apply (wp_intro (λ final,
    texts (stdout final.1) `prefix_of` progress_lines ∧
    (final.2 = Ok () ↔ texts (stdout final.1) = progress_lines))).
  wp_run_exact; cbn [fst snd]; wp_simpl;
    rewrite ?texts_app, ?texts_manifest_lines;
    (split; [vm_compute; eexists; reflexivity |]);
    (split; [first [discriminate | intros _; vm_compute; reflexivity]
            | first [reflexivity
                    | intros Heq; vm_compute in Heq; discriminate Heq]]).
Qed.

(** ** The manifest *)

Lemma path_leb_total (p q : Path) : path_leb p q = true ∨ path_leb q p = true.
Proof.
  revert q. induction p as [| a p IH]; intros [| b q]; cbn; auto.
  rewrite (String.compare_antisym b a).
  destruct (String.compare a b); cbn; auto.
Qed.

#[global] Instance path_le_total : Total path_le.
Proof. intros p q. apply path_leb_total. Qed.









(** ** Where a run fails *)

Lemma clean_stat_ok (es : list Path) : clean (stat_ok <$> es).
Proof. unfold clean. rewrite Forall_fmap. by apply Forall_true. Qed.

Ltac exact_clean :=
  unfold clean; repeat apply Forall_app_2; try apply clean_stat_ok;
  repeat first [apply Forall_cons_2 | apply Forall_nil_2]; reflexivity.

(** X3. When a run raises, the call that raised belongs to the step
    whose announcement is the last text line printed; a run that fails in
    the configuration block has printed nothing. *)
Theorem failing_step_announced :
  ∀ (w : World) (fs0 : FS) (g : Rng) pre c e,
    let final := run w fs0 g in
    calls final.1 = pre ++ [(c, Some e)] →
    match stage c with
    | 0 => stdout final.1 = []
    | k => last (texts (stdout final.1)) = checkpoint k
    end.
Proof.
  intros w fs0 g pre c e final. subst final. revert pre c e. unfold run.
  apply (wp_intro (λ final, ∀ pre c e,
    calls final.1 = pre ++ [(c, Some e)] →
    match stage c with
    | 0 => stdout final.1 = []
    | k => last (texts (stdout final.1)) = checkpoint k
    end)).
  wp_run_exact; cbn [fst snd]; wp_simpl; intros xpre xc xe Heq.
  all: first
    [ (* the call that raised is the last one recorded *)
      apply app_inj_tail in Heq as [_ [= <- <-]]; vm_compute; reflexivity
    | (* a run that returned has no call that raised *)
      exfalso; apply (clean_no_failure xpre xc xe []);
      rewrite <- Heq; exact_clean ].
Qed.

Lemma failing_step_announced_witness :
  last (texts (stdout (run Demo.offline ∅ 0%N).1)) = checkpoint 1.
Proof.
  apply (failing_step_announced Demo.offline ∅ 0%N
           [(CallMkdir OUTPUT_DIR, None)]
           (CallProcessorFromPretrained MODEL_ID)
           (LibraryError "unreachable")).
  vm_compute. reflexivity.
Defined.

Lemma Path_mkdir_taken (fs0 : FS) (data : string) :
  fs0 !! OUTPUT_DIR = Some (File data) →
  Path_mkdir OUTPUT_DIR fs0 = (fs0, Raise FileExistsError).
Proof.
  intros H. unfold Path_mkdir.
  change (node fs0 OUTPUT_DIR) with (fs0 !! OUTPUT_DIR). by rewrite H.
Qed.

(** X4. When a regular file already has the name of the output
    directory, the run raises [FileExistsError] at once: nothing is
    printed, no library is called, and the file system is left as it
    was. *)
Theorem output_dir_name_taken :
  ∀ (w : World) (fs0 : FS) (g : Rng) (data : string),
    fs0 !! OUTPUT_DIR = Some (File data) →
    run w fs0 g
    = ({| fs := fs0; rng := g; stdout := [];
          calls := [(CallMkdir OUTPUT_DIR, Some FileExistsError)] |},
       Raise FileExistsError).
Proof.
  intros w fs0 g data Htaken.
  unfold run, main, load, mbind, M_bind, call, initial. cbn [fs].
  rewrite (Path_mkdir_taken fs0 data Htaken). reflexivity.
Qed.

Lemma output_dir_name_taken_witness :
  let taken : FS := {[ OUTPUT_DIR := File "notes" ]} in
  (run Demo.world taken 0%N).2 = Raise FileExistsError ∧
  fs (run Demo.world taken 0%N).1 = taken.
Proof.
  intros taken.
  rewrite (output_dir_name_taken Demo.world taken 0%N "notes").
  - split; reflexivity.
  - apply lookup_singleton_eq.
Defined.

(** ** The tokenizer artifact writer, once more *)

(** X5. When saving the tokenizer has put a vocabulary file in the
    output directory, the step ends there: it prints its two lines, makes
    no other call, and leaves the file system as [save_pretrained] left
    it, so the saved vocabulary is not replaced by the tokenizer's source
    file. *)
Theorem vocab_present_no_copy :
  ∀ (w : World) (processor : BlipProcessor) (s : State) (fs1 : FS),
    save_pretrained w (tokenizer processor) OUTPUT_DIR (fs s)
    = (fs1, Ok ()) →
    is_Some (fs1 !! out "vocab.txt") →
    save_tokenizer w processor s
    = ({| fs := fs1; rng := rng s;
          stdout := stdout s ++ [Text "[4/5] Saving tokenizer files...";
                                 Text "    ✅ Tokenizer files saved."];
          calls := calls s ++ [(CallSavePretrained OUTPUT_DIR, None)] |},
       Ok ()).
Proof.
  intros w processor s fs1 Hsave Hvocab.
  unfold save_tokenizer, mbind, M_bind, call, print, exists_.
  cbn [fs rng stdout calls]. rewrite Hsave. cbn [fs rng stdout calls outcome].
  assert (Path_exists (out "vocab.txt") fs1 = true) as ->
    by by apply Path_exists_true.
  cbn. by rewrite <- app_assoc.
Qed.

Lemma demo_write_file_fresh (p : Path) (data : string) (fs0 : FS) :
  fs0 !! p = None →
  Demo.write_file p data fs0 = (<[p := File data]> fs0, Ok ()).
Proof. intros H. unfold Demo.write_file. by rewrite H. Qed.

Lemma vocab_present_no_copy_witness :
  let disk : FS := <[out "vocab.txt" := File "kept"]> Demo.disk in
  let final := save_tokenizer Demo.world Demo.processor (initial disk 0%N) in
  fs final.1 !! out "vocab.txt" = Some (File "kept") ∧
  calls final.1 = [(CallSavePretrained OUTPUT_DIR, None)].
Proof.
  intros disk final. subst final.
  rewrite (vocab_present_no_copy Demo.world Demo.processor (initial disk 0%N)
             (<[out "tokenizer.json" := File "{}"]> disk)).
  - split; [vm_compute; reflexivity | reflexivity].
  - apply demo_write_file_fresh. vm_compute. reflexivity.
  - exists (File "kept"). vm_compute. reflexivity.
Defined.

(** X6. Whatever happens in the step, the only path it changes beyond
    what [save_pretrained] did is the vocabulary file of the output
    directory; the file it copies from stays as it is. *)
Theorem tokenizer_step_touches_only_vocab :
  ∀ (w : World) (processor : BlipProcessor) (s : State) (p : Path),
    p ≠ out "vocab.txt" →
    fs (save_tokenizer w processor s).1 !! p
    = (save_pretrained w (tokenizer processor) OUTPUT_DIR (fs s)).1 !! p.
Proof.
  intros w processor s p Hp.
  apply (wp_intro (λ final,
    fs final.1 !! p
    = (save_pretrained w (tokenizer processor) OUTPUT_DIR (fs s)).1 !! p)).
  unfold save_tokenizer. repeat wp_step; cbn [fst snd]; wp_simpl;
    match goal with
    | H : save_pretrained _ _ _ _ = _ |- _ => rewrite H
    end; cbn [fst];
    repeat match goal with
    | H : Path_exists _ _ = false |- _ => apply Path_exists_false in H
    | H : Path_new _ _ = _ |- _ => apply Path_new_inv in H as [-> _]
    | H : shutil_copy _ _ _ = (_, Ok _) |- _ =>
        apply shutil_copy_fresh_Ok in H as (? & _ & _ & ->); [| assumption]
    | H : shutil_copy _ _ _ = (_, Raise _) |- _ =>
        apply shutil_copy_fresh_Raise in H as [-> _]; [| assumption]
    end;
    try reflexivity.
  by rewrite lookup_insert_ne.
Qed.

Lemma tokenizer_step_touches_only_vocab_witness :
  fs (save_tokenizer Demo.world Demo.processor (initial Demo.disk 0%N)).1
    !! Demo.cached_vocab
  = Some (File "[PAD]").
Proof.
  etrans.
  - apply (tokenizer_step_touches_only_vocab Demo.world Demo.processor
             (initial Demo.disk 0%N) Demo.cached_vocab).
    discriminate.
  - vm_compute. reflexivity.
Defined.

(** ** The arguments of the exports, once more *)

Ltac axes_of_name :=
  unfold is_dynamic, axis_name;
  cbn [dynamic_axes vision_export_args text_export_args];
  repeat (rewrite lookup_insert_ne by discriminate);
  rewrite lookup_insert_eq; cbn [mbind option_bind];
  rewrite bool_decide_eq_true, ?batch_only_dynamic, ?batch_seq_dynamic.

(** X7. In every export of every run the names and the tensors fit: there
    is one input name per traced input, no name is used twice, the
    dynamic axes are declared for exactly the input and output names, and
    a dynamic axis of an input is an axis that input has. *)
Theorem export_names_fit :
  ∀ (w : World) (fs0 : FS) (g : Rng) (a : ExportArgs),
    a ∈ exports (calls (run w fs0 g).1) →
    length (input_names a) = length (args a) ∧
    NoDup (input_names a ++ output_names a) ∧
    dom (dynamic_axes a)
    = list_to_set (input_names a ++ output_names a) ∧
    (∀ i name t axis,
        input_names a !! i = Some name →
        args a !! i = Some t →
        is_dynamic a name axis = true →
        (axis < length (shape t))%nat).
Proof.
  intros w fs0 g a [fwd Hiss]%exports_issued.
  inversion Hiss; subst; (split_and!; [reflexivity | | |]).
  - apply (bool_decide_unpack _). vm_compute. exact I.
  - cbn [dynamic_axes vision_export_args input_names output_names app].
    rewrite !dom_insert_L, dom_empty_L. set_solver.
  - intros [| i] name t axis Hname Ht; [| destruct i; discriminate Hname].
    injection Hname as <-. injection Ht as <-.
    axes_of_name. intros ->. cbn. lia.
  - apply (bool_decide_unpack _). vm_compute. exact I.
  - cbn [dynamic_axes text_export_args input_names output_names app].
    rewrite !dom_insert_L, dom_empty_L. set_solver.
  - intros [| [| [| i]]] name t axis Hname Ht; try discriminate Hname;
      injection Hname as <-; injection Ht as <-;
      axes_of_name; cbn; lia.
Qed.

Lemma export_names_fit_witness :
  let a := text_export_args (torch_ones [1; seq_len]%N torch_long)
             (torch_ones [1; seq_len]%N torch_long)
             (torch_randn (randn_samples Demo.world 442368%N)
                [1; 577; 768]%N) in
  a ∈ exports (calls (run Demo.world Demo.disk 0%N).1) ∧
  dom (dynamic_axes a) = list_to_set (input_names a ++ output_names a).
Proof.
  intros a.
  assert (a ∈ exports (calls (run Demo.world Demo.disk 0%N).1)) as Hin.
  { apply list_elem_of_lookup. exists 1. reflexivity. }
  split; [exact Hin |].
  by destruct (export_names_fit Demo.world Demo.disk 0%N a Hin)
    as (_ & _ & Hdom & _).
Defined.

(** ** One model, two exports *)

Lemma traced_app (l1 l2 : list (Call * option Exn)) :
  traced (l1 ++ l2) = traced l1 ++ traced l2.
Proof. apply omap_app. Qed.

Lemma traced_stat_ok (es : list Path) : traced (stat_ok <$> es) = [].
Proof. induction es as [| e es IH]; [done | exact IH]. Qed.

Ltac loaded_model :=
  lazymatch goal with
  | H : BlipForConditionalGeneration_from_pretrained _ _ _ = (_, Ok ?m)
    |- _ => exists m; split; [by eexists _, _, _ |]
  end.

(** X8. A run hands at most two modules to the exporter, the vision
    wrapper first and the text wrapper second, and both wrap the
    sub-modules of one and the same model, the one the run loaded; a run
    that returns has exported both. *)
Theorem exports_from_one_model :
  ∀ (w : World) (fs0 : FS) (g : Rng),
    let final := run w fs0 g in
    (traced (calls final.1) = [] ∨
     ∃ model, loaded w model ∧
       (traced (calls final.1) = [vision_module model] ∨
        traced (calls final.1) = [vision_module model; text_module model])) ∧
    (final.2 = Ok () →
     ∃ model, loaded w model ∧
       traced (calls final.1) = [vision_module model; text_module model]).
Proof.
  intros w fs0 g final. subst final. unfold run.
  apply (wp_intro (λ final,
    (traced (calls final.1) = [] ∨
     ∃ model, loaded w model ∧
       (traced (calls final.1) = [vision_module model] ∨
        traced (calls final.1) = [vision_module model; text_module model])) ∧
    (final.2 = Ok () →
     ∃ model, loaded w model ∧
       traced (calls final.1) = [vision_module model; text_module model]))).
  wp_run_exact; cbn [fst snd]; wp_simpl;
    rewrite ?traced_app, ?traced_stat_ok;
    cbn [traced omap fst snd app];
    (split;
     [ first [ left; reflexivity
             | right; loaded_model;
               first [left; reflexivity | right; reflexivity] ]
     | first [ discriminate | intros _; loaded_model; reflexivity ] ]).
Qed.

Lemma exports_from_one_model_witness :
  traced (calls (run Demo.world Demo.disk 0%N).1)
  = [vision_module Demo.model; text_module Demo.model].
Proof.
  destruct (exports_from_one_model Demo.world Demo.disk 0%N)
    as [_ Hboth].
  destruct Hboth as (model & (id & fsa & fsb & Hload) & ->);
    [vm_compute; reflexivity |].
  injection Hload as _ <-. reflexivity.
Defined.

(** ** The report cannot fail *)





(** ** What the script itself writes *)

Lemma oracle_inert {A} (op : FS → FS * Result A) (fs0 fs1 : FS) r :
  (∀ fs0, (op fs0).1 = fs0) → op fs0 = (fs1, r) → fs1 = fs0.
Proof. intros H Hop. specialize (H fs0). by rewrite Hop in H. Qed.

Lemma Path_mkdir_cases (p : Path) (fs0 fs1 : FS) r :
  Path_mkdir p fs0 = (fs1, r) → fs1 = fs0 ∨ fs1 = <[p := Dir]> fs0.
Proof.
  unfold Path_mkdir.
  destruct (node fs0 p) as [[| ?] |]; try (intros [= <- <-]; by left).
  destruct (node fs0 (parent p)) as [[| ?] |]; intros [= <- <-]; auto.
Qed.

(** With inert libraries, every file system a call returns is known. *)
Ltac inert_facts Hw :=
  destruct Hw as (Hproc & Hmodel & Hexport & Hsave);
  repeat match goal with
  | H : Path_exists _ _ = false |- _ => apply Path_exists_false in H
  | H : Path_exists _ _ = true |- _ => apply Path_exists_true in H
  | H : Path_new _ _ = _ |- _ => apply Path_new_inv in H as [-> _]
  | H : Path_mkdir _ _ = _ |- _ =>
      apply Path_mkdir_cases in H as [-> | ->]
  | H : shutil_copy _ _ _ = (_, Ok _) |- _ =>
      apply shutil_copy_fresh_Ok in H as (? & _ & _ & ->); [| assumption]
  | H : shutil_copy _ _ _ = (_, Raise _) |- _ =>
      apply shutil_copy_fresh_Raise in H as [-> _]; [| assumption]
  | H : BlipProcessor_from_pretrained _ _ _ = _ |- _ =>
      apply (oracle_inert _ _ _ _ (Hproc _)) in H; subst
  | H : BlipForConditionalGeneration_from_pretrained _ _ _ = _ |- _ =>
      apply (oracle_inert _ _ _ _ (Hmodel _)) in H; subst
  | H : torch_onnx_export _ _ _ _ _ = _ |- _ =>
      apply (oracle_inert _ _ _ _ (Hexport _ _ _)) in H; subst
  | H : save_pretrained _ _ _ _ = _ |- _ =>
      apply (oracle_inert _ _ _ _ (Hsave _ _)) in H; subst
  end.

(** X10. Apart from what the libraries write, a run changes at most two
    paths: the output directory, which it may create, and the vocabulary
    file in it, which it may copy.  With libraries that leave the file
    system alone, every other path is after the run what it was before. *)
Theorem script_writes_two_paths :
  ∀ (w : World) (fs0 : FS) (g : Rng) (p : Path),
    inert w →
    p ≠ OUTPUT_DIR →
    p ≠ out "vocab.txt" →
    fs (run w fs0 g).1 !! p = fs0 !! p.
Proof.
  intros w fs0 g p Hw Hdir Hvocab. unfold run.
  apply (wp_intro (λ final, fs final.1 !! p = fs0 !! p)).
  wp_run_exact; cbn [fst snd]; wp_simpl; inert_facts Hw;
    by rewrite ?lookup_insert_ne.
Qed.

Lemma dry_world_inert : inert Dry.world.
Proof. by split_and!. Qed.

Lemma script_writes_two_paths_witness :
  (run Dry.world Demo.disk 0%N).2 = Ok () ∧
  fs (run Dry.world Demo.disk 0%N).1 !! Demo.cached_vocab
  = Some (File "[PAD]") ∧
  fs (run Dry.world Demo.disk 0%N).1 !! out "blip_text_decoder.onnx" = None.
Proof.
  split_and!.
  - vm_compute. reflexivity.
  - etrans.
    + by apply (script_writes_two_paths Dry.world Demo.disk 0%N
                  Demo.cached_vocab dry_world_inert).
    + vm_compute. reflexivity.
  - etrans.
    + by apply (script_writes_two_paths Dry.world Demo.disk 0%N
                  (out "blip_text_decoder.onnx") dry_world_inert).
    + vm_compute. reflexivity.
Defined.

(** ** Running the script again *)

(** A run that returns leaves the output directory with a vocabulary
    file in it: nothing is called between the tokenizer step and the
    listing. *)
Lemma returning_run_outputs (w : World) (fs0 : FS) (g : Rng) :
  (run w fs0 g).2 = Ok () →
  fs (run w fs0 g).1 !! OUTPUT_DIR = Some Dir ∧
  is_Some (fs (run w fs0 g).1 !! out "vocab.txt").
Proof.
  unfold run.
  apply (wp_intro (λ final,
    final.2 = Ok () →
    fs final.1 !! OUTPUT_DIR = Some Dir ∧
    is_Some (fs final.1 !! out "vocab.txt"))).
  wp_run_exact; cbn [fst snd]; wp_simpl; try discriminate; intros _;
    (split; [assumption |]).
  - match goal with
    | Hex : Path_exists _ _ = true |- _ =>
        apply Path_exists_true in Hex; exact Hex
    end.
  - match goal with
    | Hex : Path_exists _ _ = false, Hn : Path_new _ _ = _,
      Hc : shutil_copy _ _ _ = _ |- _ =>
        apply Path_exists_false in Hex;
        apply Path_new_inv in Hn as [-> _];
        apply shutil_copy_fresh_Ok in Hc as (? & _ & _ & ->); [| done]
    end.
    rewrite lookup_insert_eq. eauto.
Qed.

(** From a file system that has both, the script writes nothing. *)
Lemma run_on_outputs (w : World) (fs0 : FS) (g : Rng) :
  inert w →
  fs0 !! OUTPUT_DIR = Some Dir →
  is_Some (fs0 !! out "vocab.txt") →
  fs (run w fs0 g).1 = fs0.
Proof.
  intros Hw Hdir [n Hvocab]. unfold run.
  apply (wp_intro (λ final, fs final.1 = fs0)).
  wp_run_exact; cbn [fst snd]; wp_simpl; inert_facts Hw;
    rewrite ?(insert_id _ _ _ Hdir) in *; try reflexivity;
    change (node ?m (out "vocab.txt")) with (m !! out "vocab.txt") in *;
    congruence.
Qed.

(** X11. With libraries that leave the file system alone, running the
    script once more after a run that returned changes nothing: the
    directory is there, so it is not made again, and the vocabulary file
    is there, so it is not copied again. *)
Theorem rerun_changes_nothing :
  ∀ (w : World) (fs0 : FS) (g g' : Rng),
    inert w →
    (run w fs0 g).2 = Ok () →
    fs (run w (fs (run w fs0 g).1) g').1 = fs (run w fs0 g).1.
Proof.
  intros w fs0 g g' Hw Hok.
  destruct (returning_run_outputs w fs0 g Hok) as [Hdir Hvocab].
  by apply run_on_outputs.
Qed.

Lemma rerun_changes_nothing_witness :
  let once := fs (run Dry.world Demo.disk 0%N).1 in
  once !! out "vocab.txt" = Some (File "[PAD]") ∧
  fs (run Dry.world once 7%N).1 = once.
Proof.
  intros once. split; [vm_compute; reflexivity |].
  apply (rerun_changes_nothing Dry.world Demo.disk 0%N 7%N dry_world_inert).
  vm_compute. reflexivity.
Defined.

(** ** Success lines *)

Lemma step_outcomes_app (k : nat) (l1 l2 : list (Call * option Exn)) :
  step_outcomes k (l1 ++ l2) = step_outcomes k l1 ++ step_outcomes k l2.
Proof. apply omap_app. Qed.

Lemma step_outcomes_stat_ok (k : nat) (es : list Path) :
  k ≠ 5 → step_outcomes k (stat_ok <$> es) = [].
Proof.
  intros Hk. induction es as [| e es IH]; [done |].
  cbn. destruct (decide (5 = k)); [congruence | exact IH].
Qed.

Lemma iff_by_decide (P Q : Prop) `{Decision P, Decision Q} :
  bool_decide P = bool_decide Q → (P ↔ Q).
Proof.
  intros Heq. rewrite <- (bool_decide_spec P), <- (bool_decide_spec Q).
  by rewrite Heq.
Qed.

(** X12. A run prints the success line of the vision export, of the
    text-decoder export or of the tokenizer step exactly when it has
    made the calls of that step and none of them raised: success is never
    reported for a step that failed or was not reached. *)
Theorem success_lines_are_sound :
  ∀ (w : World) (fs0 : FS) (g : Rng) (k : nat) (line : string),
    (k, line) ∈ success_lines →
    line ∈ texts (stdout (run w fs0 g).1) ↔
    step_done k (calls (run w fs0 g).1).
Proof.
  intros w fs0 g k line Hin. unfold run.
  apply (wp_intro (λ final,
    line ∈ texts (stdout final.1) ↔ step_done k (calls final.1))).
  unfold success_lines in Hin.
  rewrite !elem_of_cons, elem_of_nil in Hin.
  wp_run_exact; cbn [fst snd]; wp_simpl;
    rewrite ?texts_app, ?texts_manifest_lines;
    unfold step_done; rewrite ?step_outcomes_app;
    destruct Hin as [[= -> ->] | [[= -> ->] | [[= -> ->] | []]]];
    rewrite ?step_outcomes_stat_ok by discriminate;
    lazymatch goal with
    | |- ?P ↔ ?Q => apply (iff_by_decide P Q)
    end; vm_compute; reflexivity.
Qed.

Lemma success_lines_are_sound_witness :
  "    ✅ Tokenizer files saved."
    ∈ texts (stdout (run Demo.world Demo.disk 0%N).1) ∧
  ¬ step_done 2 (calls (run Demo.offline ∅ 0%N).1).
Proof.
  split.
  - apply (success_lines_are_sound Demo.world Demo.disk 0%N 4).
    + unfold success_lines. set_solver.
    + apply (bool_decide_unpack _). vm_compute. exact I.
  - intros Hdone.
    apply (success_lines_are_sound Demo.offline ∅ 0%N 2
             "    ✅ Vision encoder exported.") in Hdone.
    + vm_compute in Hdone. set_solver.
    + unfold success_lines. set_solver.
Defined.
